(** * Overlore event store: decoder and persistence of [DatabaseHandler]

    A shallow embedding of [src/overlore/db/handler.py].  Python values
    are first-order data, raised exceptions are the left summand of a
    sum type, and the handler (connection, lock) is threaded explicitly
    through every method that touches it. *)

From Stdlib Require Import ZArith List String Ascii Bool Lia Sorted.
From Stdlib Require Import DecimalString.
Import ListNotations.

Local Open Scope string_scope.
Local Open Scope Z_scope.

Set Warnings "-register-all".

(** ** Exceptions and the error monad *)

(** The exceptions that the handler's code paths can raise.  All of
    them are Python built-ins except [RealmNotFound] (raised by the
    registry, whose code is not part of the handler), [SqlBindError]
    (the driver's refusal of a parameter that is no SQL value) and
    [OperationalError] (the engine's refusal of a statement, as when an
    extension cannot be loaded). *)
Inductive exn : Type :=
| IndexError
| ValueError
| OverflowError
| TypeError
| KeyError (key : string)
| RuntimeError (msg : string)
| RealmNotFound (id : Z)
| SqlBindError
| OperationalError (msg : string).

Definition result (A : Type) : Type := (exn + A)%type.

Definition ok {A} (a : A) : result A := inr a.
Definition raise {A} (e : exn) : result A := inl e.

Definition rbind {A B} (m : result A) (f : A -> result B) : result B :=
  match m with
  | inl e => inl e
  | inr a => f a
  end.

Declare Scope result_scope.
Delimit Scope result_scope with result.
Notation "x <- m ;; k" := (rbind m (fun x => k))
  (at level 61, m at next level, right associativity) : result_scope.
Notation "' p <- m ;; k" := (rbind m (fun p => k))
  (at level 61, p pattern, m at next level, right associativity) : result_scope.

(** A list comprehension [[f i for i in l]]: the elements are evaluated
    left to right and the first exception aborts the whole expression. *)
Fixpoint mapM {A B} (f : A -> result B) (l : list A) : result (list B) :=
  match l with
  | [] => ok []
  | a :: l' =>
      match f a with
      | inl e => inl e
      | inr b =>
          match mapM f l' with
          | inl e => inl e
          | inr bs => ok (b :: bs)
          end
      end
  end.

(** ** Python sequence primitives *)

Definition len {A} (l : list A) : Z := Z.of_nat (List.length l).

(** [l[i]]: negative indices count from the end; out of range raises. *)
Definition getitem {A} (l : list A) (i : Z) : result A :=
  let j := if i <? 0 then i + len l else i in
  if j <? 0 then raise IndexError
  else match nth_error l (Z.to_nat j) with
       | Some a => ok a
       | None => raise IndexError
       end.

(** [l[start:]]: a negative start counts from the end, and the bounds
    are clamped, so a slice never raises. *)
Definition slice_from {A} (l : list A) (start : Z) : list A :=
  let s := if start <? 0 then Z.max 0 (start + len l) else start in
  skipn (Z.to_nat s) l.

(** [range(start, stop, step)] for a positive step. *)
Fixpoint range_from (start step : Z) (n : nat) : list Z :=
  match n with
  | O => []
  | S n' => start :: range_from (start + step) step n'
  end.

Definition range (start stop step : Z) : list Z :=
  range_from start step (Z.to_nat ((stop - start + step - 1) / step)).

(** ** [int(s, base=16)] *)

(** The characters that CPython's integer parser skips around a
    literal: space, tab, newline, vertical tab, form feed, return. *)
Definition is_space (c : ascii) : bool :=
  let n := nat_of_ascii c in
  (Nat.eqb n 32 || (Nat.leb 9 n && Nat.leb n 13))%bool.

Definition hex_digit (c : ascii) : option Z :=
  let n := Z.of_nat (nat_of_ascii c) in
  if (48 <=? n) && (n <=? 57) then Some (n - 48)
  else if (97 <=? n) && (n <=? 102) then Some (n - 87)
  else if (65 <=? n) && (n <=? 70) then Some (n - 55)
  else None.

Definition underscore : ascii := "_"%char.

Fixpoint skip_spaces (s : string) : string :=
  match s with
  | String c s' => if is_space c then skip_spaces s' else s
  | EmptyString => s
  end.

(** The digit loop: digits may be separated by single underscores.
    [prev_us] tells whether the previous character was an underscore,
    [digits] counts the digits read so far.  The loop stops at the
    first character that is neither; what follows must be spaces. *)
Fixpoint scan_digits (s : string) (acc : Z) (digits : nat) (prev_us : bool)
  : option Z :=
  match s with
  | EmptyString =>
      if prev_us then None
      else match digits with O => None | _ => Some acc end
  | String c s' =>
      if Ascii.eqb c underscore then
        if prev_us then None else scan_digits s' acc digits true
      else
        match hex_digit c with
        | Some d => scan_digits s' (16 * acc + d) (S digits) false
        | None =>
            if prev_us then None
            else match digits with
                 | O => None
                 | _ => match skip_spaces s with
                        | EmptyString => Some acc
                        | _ => None
                        end
                 end
        end
  end.

Definition strip_sign (s : string) : bool * string :=
  match s with
  | String "-"%char s' => (true, s')
  | String "+"%char s' => (false, s')
  | _ => (false, s)
  end.

(** After [0x] or [0X] one underscore is allowed before the digits. *)
Definition strip_prefix (s : string) : string :=
  match s with
  | String "0"%char (String c s') =>
      if (Ascii.eqb c "x"%char || Ascii.eqb c "X"%char)%bool then
        match s' with
        | String u s'' => if Ascii.eqb u underscore then s'' else s'
        | EmptyString => s'
        end
      else s
  | _ => s
  end.

Definition parse_hex (s : string) : option Z :=
  let '(neg, s1) := strip_sign (skip_spaces s) in
  let s2 := strip_prefix s1 in
  match s2 with
  | String c _ =>
      if Ascii.eqb c underscore then None
      else match scan_digits s2 0 0 false with
           | Some v => Some (if neg then - v else v)
           | None => None
           end
  | EmptyString => None
  end.

(** [int(s, base=16)] on an ASCII word: the value, or [ValueError]. *)
Definition int16 (s : string) : result Z :=
  match parse_hex s with
  | Some v => ok v
  | None => raise ValueError
  end.

(** ** [int(raw / 1000)] *)

(** Rounding of the fraction [n / d] (with [0 <= n], [0 < d]) to the
    nearest integer, ties to the even one. *)
Definition round_half_even (n d : Z) : Z :=
  let q := n / d in
  let r := n mod d in
  if 2 * r <? d then q
  else if d <? 2 * r then q + 1
  else if Z.even q then q else q + 1.

(** The exponent [floor (log2 (a / b))] of a positive quotient. *)
Definition quotient_exponent (a b : Z) : Z :=
  let d := Z.log2 a - Z.log2 b in
  let reaches := if 0 <=? d then b * 2 ^ d <=? a else b <=? a * 2 ^ (- d) in
  if reaches then d else d - 1.

(** [int(a / b)] for [0 < a] and a small positive [b] (here always
    1000, so the quotient is far above the subnormal range).  Python's
    [/] on two integers yields the binary64 number nearest to the exact
    quotient: a 53-bit significand [m] scaled by [2 ^ e], or
    [OverflowError] past the largest finite double.  [int] then
    truncates that number. *)
Definition truediv_pos (a b : Z) : result Z :=
  let e := quotient_exponent a b - 52 in
  if 0 <=? e then
    let m := round_half_even a (b * 2 ^ e) in
    if 2 ^ 1024 <=? m * 2 ^ e then raise OverflowError else ok (m * 2 ^ e)
  else
    let m := round_half_even (a * 2 ^ (- e)) b in
    ok (m / 2 ^ (- e)).

(** [int(a / 1000)]: rounding is symmetric and [int] truncates toward
    zero, so a negative numerator mirrors the positive case. *)
Definition int_truediv_1000 (a : Z) : result Z :=
  if a =? 0 then ok 0
  else if 0 <? a then truediv_pos a 1000
  else (v <- truediv_pos (- a) 1000 ;; ok (- v))%result.

(** ** Python values and dictionaries *)

Section Values.

(** The coordinate type of a realm position ([overlore.eternum.types]
    is not part of the handler's source). *)
Variable coord : Type.

Definition RealmPosition : Type := (coord * coord)%type.

(** The values that occur in a [ParsedEvent]: integers, a position
    pair, lists and string-keyed dictionaries.  A dictionary keeps
    its insertion order, which [json.dumps] follows. *)
Inductive pyval : Type :=
| VInt (z : Z)
| VPos (p : RealmPosition)
| VList (l : list pyval)
| VDict (d : list (string * pyval)).

Definition dict : Type := list (string * pyval).

Definition ParsedEvent : Type := dict.

Fixpoint dict_get (d : dict) (k : string) : option pyval :=
  match d with
  | [] => None
  | (k', v) :: d' => if String.eqb k' k then Some v else dict_get d' k
  end.

Definition has_key (d : dict) (k : string) : bool :=
  match dict_get d k with Some _ => true | None => false end.

(** [d[k]] *)
Definition dict_item (d : dict) (k : string) : result pyval :=
  match dict_get d k with
  | Some v => ok v
  | None => raise (KeyError k)
  end.

Definition dict_remove (d : dict) (k : string) : dict :=
  filter (fun kv => negb (String.eqb (fst kv) k)) d.

(** [del d[k]]: removes the entry, or raises when there is none. *)
Definition dict_del (d : dict) (k : string) : result dict :=
  if has_key d k then ok (dict_remove d k) else raise (KeyError k).

(** *** [json.dumps] *)

Definition dquote : string := String (ascii_of_nat 34) EmptyString.

Definition repr_int (z : Z) : string := NilZero.string_of_int (Z.to_int z).

Fixpoint join (sep : string) (l : list string) : string :=
  match l with
  | [] => EmptyString
  | [x] => x
  | x :: l' => x ++ sep ++ join sep l'
  end.

(** A string between quotes, as [json.dumps] prints it with
    [ensure_ascii]: the quote and the backslash are escaped, the
    printable ASCII characters stand for themselves, and every other
    character (a string is a sequence of characters below 256) is
    written as one of the short escapes or as [\u00xx]. *)
Definition backslash : string := String (ascii_of_nat 92) EmptyString.

Definition hex_lower (n : nat) : string :=
  String (nth n (list_ascii_of_string "0123456789abcdef") "0"%char) EmptyString.

Definition escape_char (c : ascii) : string :=
  let n := nat_of_ascii c in
  if Nat.eqb n 34 then backslash ++ dquote
  else if Nat.eqb n 92 then backslash ++ backslash
  else if Nat.eqb n 10 then backslash ++ "n"
  else if Nat.eqb n 13 then backslash ++ "r"
  else if Nat.eqb n 9 then backslash ++ "t"
  else if Nat.eqb n 8 then backslash ++ "b"
  else if Nat.eqb n 12 then backslash ++ "f"
  else if (Nat.leb 32 n && Nat.leb n 126)%bool then String c EmptyString
  else backslash ++ "u00" ++ hex_lower (Nat.div n 16) ++ hex_lower (Nat.modulo n 16).

Fixpoint escape (s : string) : string :=
  match s with
  | EmptyString => EmptyString
  | String c s' => escape_char c ++ escape s'
  end.

Definition json_string (s : string) : string := dquote ++ escape s ++ dquote.

(** How [json.dumps] prints one coordinate. *)
Variable repr_coord : coord -> string.

(** The text of a value.  The default separators are a comma and a
    colon, each followed by a space; a tuple prints as a list. *)
Fixpoint json_dumps (v : pyval) : string :=
  match v with
  | VInt z => repr_int z
  | VPos (x, y) => "[" ++ repr_coord x ++ ", " ++ repr_coord y ++ "]"
  | VList l => "[" ++ join ", " (map json_dumps l) ++ "]"
  | VDict d =>
      "{" ++ join ", "
               (map (fun kv => json_string (fst kv) ++ ": "
                                 ++ json_dumps (snd kv)) d)
          ++ "}"
  end.

(** An integer is printed in decimal only up to 4300 digits (the
    interpreter's default limit on such conversions). *)
Definition max_str_digits : Z := 4300.

Fixpoint printable (v : pyval) : bool :=
  match v with
  | VInt z => Z.abs z <? 10 ^ max_str_digits
  | VPos _ => true
  | VList l => forallb printable l
  | VDict d => forallb (fun kv => printable (snd kv)) d
  end.

(** The call [json.dumps(v)]: the text, or [ValueError] when an
    integer inside [v] is too long to print. *)
Definition json_dumps_call (v : pyval) : result string :=
  if printable v then ok (json_dumps v) else raise ValueError.

End Values.

Arguments VInt {coord} z.
Arguments VPos {coord} p.
Arguments VList {coord} l.
Arguments VDict {coord} d.
Arguments dict_get {coord} d k.
Arguments has_key {coord} d k.
Arguments dict_item {coord} d k.
Arguments dict_remove {coord} d k.
Arguments dict_del {coord} d k.
Arguments json_dumps {coord} repr_coord v.
Arguments printable {coord} v : simpl never.
Arguments json_dumps_call {coord} repr_coord v.

(** ** The parts of the repository that the handler imports *)

(** [Realms.position_by_id], the two enumerations of event types and
    the coordinates live outside the handler; its methods are
    parameterised by them.  [repr_coord] is the text of a coordinate in
    JSON; [bind_coord] is what the driver does with a coordinate that
    is passed as a parameter of a statement: it accepts it, or raises
    (as it does for an integer beyond 64 bits). *)
Record Deps (coord : Type) : Type := mkDeps {
  position_by_id : Z -> result (RealmPosition coord);
  EventKeyHash_COMBAT_OUTCOME : string;
  EventKeyHash_ORDER_ACCEPTED : string;
  SqLiteEventType_COMBAT_OUTCOME : Z;
  SqLiteEventType_ORDER_ACCEPTED : Z;
  repr_coord : coord -> string;
  bind_coord : coord -> result unit
}.

Arguments position_by_id {coord} d id.
Arguments EventKeyHash_COMBAT_OUTCOME {coord} d.
Arguments EventKeyHash_ORDER_ACCEPTED {coord} d.
Arguments SqLiteEventType_COMBAT_OUTCOME {coord} d.
Arguments SqLiteEventType_ORDER_ACCEPTED {coord} d.
Arguments repr_coord {coord} d c.
Arguments bind_coord {coord} d c.

(** ** The decoder *)

Section Decoder.

Context {coord : Type}.
Variable D : Deps coord.

Local Open Scope result_scope.

(** [int(data[i], base=16)] *)
Definition int_at (data : list string) (i : Z) : result Z :=
  w <- getitem data i ;; int16 w.

(** One element of the comprehension in [__parse_resources]: the
    dictionary literal evaluates its entries in order. *)
Definition resource_at (data : list string) (i : Z) : result (pyval coord) :=
  type <- int_at data i ;;
  raw <- int_at data (i + 1) ;;
  amount <- int_truediv_1000 raw ;;
  ok (VDict [("type", VInt type); ("amount", VInt amount)]).

Definition __parse_resources (data : list string)
  : result (list string * list (pyval coord)) :=
  resource_len <- int_at data 0 ;;
  let end_idx_resources := resource_len * 2 in
  resources <- mapM (resource_at data) (range 1 end_idx_resources 2) ;;
  ok (slice_from data (end_idx_resources + 1), resources).

Definition __parse_attacking_entity_ids (data : list string)
  : result (list string * list Z) :=
  length <- int_at data 0 ;;
  attacking_entity_ids <- mapM (int_at data) (range 1 length 1) ;;
  ok (slice_from data (1 + length), attacking_entity_ids).

Definition __parse_combat_outcome_event (keys data : list string)
  : result (ParsedEvent coord) :=
  attacker_realm_id <- int_at keys 1 ;;
  target_realm_entity_id <- int_at keys 2 ;;
  '(data, attacking_entity_ids) <- __parse_attacking_entity_ids data ;;
  '(data, stolen_resources) <- __parse_resources data ;;
  winner <- int_at data 0 ;;
  damage <- int_at data 1 ;;
  ts <- int_at data 2 ;;
  active_pos <- position_by_id D attacker_realm_id ;;
  passive_pos <- position_by_id D target_realm_entity_id ;;
  ok [("type", VInt (SqLiteEventType_COMBAT_OUTCOME D));
      ("active_pos", VPos active_pos);
      ("passive_pos", VPos passive_pos);
      ("attacking_entity_ids", VList (map VInt attacking_entity_ids));
      ("stolen_resources", VList stolen_resources);
      ("winner", VInt winner);
      ("damage", VInt damage);
      ("importance", VInt 0);
      ("ts", VInt ts)].

Definition __parse_trade_event (keys data : list string)
  : result (ParsedEvent coord) :=
  _trade_id <- int_at keys 1 ;;
  maker_id <- int_at data 0 ;;
  taker_id <- int_at data 1 ;;
  let data := slice_from data 2 in
  '(data, resources_maker) <- __parse_resources data ;;
  '(data, resources_taker) <- __parse_resources data ;;
  ts <- int_at data 0 ;;
  active_pos <- position_by_id D maker_id ;;
  passive_pos <- position_by_id D taker_id ;;
  ok [("type", VInt (SqLiteEventType_ORDER_ACCEPTED D));
      ("active_pos", VPos active_pos);
      ("passive_pos", VPos passive_pos);
      ("resources_maker", VList resources_maker);
      ("resources_taker", VList resources_taker);
      ("importance", VInt 0);
      ("ts", VInt ts)].

End Decoder.

(** ** The store *)

(** A state-and-exception monad: an exception leaves the state as it
    was when it was raised. *)
Definition M (S A : Type) : Type := S -> result A * S.

Definition mret {S A} (a : A) : M S A := fun s => (ok a, s).

Definition mraise {S A} (e : exn) : M S A := fun s => (raise e, s).

Definition mbind {S A B} (m : M S A) (f : A -> M S B) : M S B :=
  fun s =>
    match m s with
    | (inl e, s') => (inl e, s')
    | (inr a, s') => f a s'
    end.

Definition lift {S A} (r : result A) : M S A := fun s => (r, s).

(** Run a computation on the second component of a pair of states. *)
Definition on_snd {S T A} (m : M T A) : M (S * T) A :=
  fun st => let '(r, t') := m (snd st) in (r, (fst st, t')).

(** Run a pure, fallible update on the first component. *)
Definition on_fst {S T} (f : S -> result S) : M (S * T) unit :=
  fun st =>
    match f (fst st) with
    | inl e => (inl e, st)
    | inr s' => (ok tt, (s', snd st))
    end.

Definition read_fst {S T A} (f : S -> result A) : M (S * T) A :=
  fun st => (f (fst st), st).

Declare Scope handler_scope.
Delimit Scope handler_scope with M.
Notation "x <- m ;; k" := (mbind m (fun x => k))
  (at level 61, m at next level, right associativity) : handler_scope.
Notation "m ;;; k" := (mbind m (fun _ => k))
  (at level 61, right associativity) : handler_scope.

Section Store.

Context {coord : Type}.
Variable D : Deps coord.

(** A row of the table [events].  The two points are kept as the pair
    of coordinates that [MakePoint] was given and that [X] and [Y] read
    back. *)
Record Row : Type := mkRow {
  row_id : Z;
  row_type : Z;
  row_importance : Z;
  row_ts : Z;
  row_metadata : string;
  row_active_pos : RealmPosition coord;
  row_passive_pos : RealmPosition coord
}.

(** The connection: the rows of [events] in rowid order, which is the
    order of a scan of the table, and the largest id ever issued
    (what AUTOINCREMENT keeps in [sqlite_sequence]). *)
Record Connection : Type := mkConnection {
  rows : list Row;
  sqlite_sequence : Z
}.

(** The class-level [Lock].  It is [Free], [Held] by the calling
    thread, or held by another thread that either releases it within
    the caller's bounded wait or does not. *)
Inductive LockState : Type :=
| Free
| Held
| HeldElsewhere (released_in_time : bool).

Inductive Statement : Type :=
| InsertEvent
| SelectById (event_id : Z)
| SelectAll.

(** What a method does with the lock and the connection, in order. *)
Inductive Action : Type :=
| Acquire (acquired : bool)
| Execute (stmt : Statement)
| Commit
| Release.

Record Handler : Type := mkHandler {
  db : Connection;
  lock : LockState;
  log : list Action
}.

Definition record (a : Action) : M Handler unit :=
  fun h => (ok tt, mkHandler (db h) (lock h) (log h ++ [a])%list).

(** [lock.acquire(blocking=True, timeout=1000)]: returns whether the
    lock was obtained.  A thread that already holds the lock waits on
    itself until the timeout. *)
Definition acquire : M Handler bool :=
  fun h =>
    match lock h with
    | Free | HeldElsewhere true => (ok true, mkHandler (db h) Held (log h))
    | Held | HeldElsewhere false => (ok false, h)
    end.

(** [lock.release()]: any thread may release a locked lock; releasing
    an unlocked one raises. *)
Definition release : M Handler unit :=
  fun h =>
    match lock h with
    | Free => (raise (RuntimeError "release unlocked lock"), h)
    | _ => (ok tt, mkHandler (db h) Free (log h))
    end.

Local Open Scope handler_scope.

(** [__lock]: the outcome of [acquire] is dropped. *)
Definition __lock : M Handler unit :=
  acquired <- acquire ;;
  record (Acquire acquired).

Definition __release : M Handler unit :=
  release ;;; record Release.

(** An integer parameter must fit SQLite's 64-bit INTEGER. *)
Definition sql_int (z : Z) : result Z :=
  if (- 2 ^ 63 <=? z) && (z <? 2 ^ 63) then ok z else raise OverflowError.

Definition sql_int_param (v : pyval coord) : result Z :=
  match v with
  | VInt z => sql_int z
  | _ => raise SqlBindError
  end.

(** The parameters of the INSERT of [__add], once bound. *)
Record InsertValues : Type := mkInsertValues {
  iv_type : Z;
  iv_importance : Z;
  iv_ts : Z;
  iv_metadata : string;
  iv_active_pos : RealmPosition coord;
  iv_passive_pos : RealmPosition coord
}.

(** [cursor.execute] of the INSERT: the new row takes the id after the
    largest one ever issued; the result is [cursor.lastrowid]. *)
Definition execute_insert (v : InsertValues) : M Handler Z :=
  fun h =>
    let id := sqlite_sequence (db h) + 1 in
    let r := mkRow id (iv_type v) (iv_importance v) (iv_ts v)
               (iv_metadata v) (iv_active_pos v) (iv_passive_pos v) in
    (ok id,
     mkHandler (mkConnection (rows (db h) ++ [r])%list id) (lock h)
       (log h ++ [Execute InsertEvent])%list).

(** [__insert]: the values are bound when the statement executes, so
    a parameter that cannot be bound raises between [__lock] and
    [__release]. *)
Definition __insert (values : result InsertValues) : M Handler Z :=
  __lock ;;;
  v <- lift values ;;
  lastrowid <- execute_insert v ;;
  record Commit ;;;
  let added_id := if lastrowid =? 0 then 0 else lastrowid in
  __release ;;;
  mret added_id.

Definition as_position (v : pyval coord) : result (RealmPosition coord) :=
  match v with
  | VPos p => ok p
  | _ => raise TypeError
  end.

(** The eight parameters of the INSERT are bound in their order: the
    type, the constant 4, the timestamp, the metadata text, then the
    two coordinates of either position.  The first one that the driver
    refuses raises. *)
Definition bind_values (event_type ts : pyval coord) (additional_data : string)
    (active passive : RealmPosition coord) : result InsertValues :=
  (t <- sql_int_param event_type ;;
   s <- sql_int_param ts ;;
   _ <- bind_coord D (fst active) ;;
   _ <- bind_coord D (snd active) ;;
   _ <- bind_coord D (fst passive) ;;
   _ <- bind_coord D (snd passive) ;;
   ok (mkInsertValues t 4 s additional_data active passive))%result.

(** [__add].  The caller's dictionary is part of the state: every
    [del] is visible to the caller, also when a later step raises. *)
Definition __add : M (ParsedEvent coord * Handler) Z :=
  event_type <- read_fst (fun obj => dict_item obj "type") ;;
  on_fst (fun obj => dict_del obj "type") ;;;
  active_pos <- read_fst (fun obj => dict_item obj "active_pos") ;;
  on_fst (fun obj => dict_del obj "active_pos") ;;;
  passive_pos <- read_fst (fun obj => dict_item obj "passive_pos") ;;
  on_fst (fun obj => dict_del obj "passive_pos") ;;;
  ts <- read_fst (fun obj => dict_item obj "ts") ;;
  on_fst (fun obj => dict_del obj "ts") ;;;
  _importance <- read_fst (fun obj => dict_item obj "importance") ;;
  on_fst (fun obj => dict_del obj "importance") ;;;
  additional_data <- read_fst (fun obj => json_dumps_call (repr_coord D) (VDict obj)) ;;
  active <- lift (as_position active_pos) ;;
  passive <- lift (as_position passive_pos) ;;
  let values := bind_values event_type ts additional_data active passive in
  on_snd (__insert values).

(** A [StoredEvent]: the list
    [[id, type, importance, ts, metadata, (x, y), (x, y)]]. *)
Record StoredEvent : Type := mkStoredEvent {
  se_id : Z;
  se_type : Z;
  se_importance : Z;
  se_ts : Z;
  se_metadata : string;
  se_active_pos : RealmPosition coord;
  se_passive_pos : RealmPosition coord
}.

Definition stored_of_row (r : Row) : StoredEvent :=
  mkStoredEvent (row_id r) (row_type r) (row_importance r) (row_ts r)
    (row_metadata r) (row_active_pos r) (row_passive_pos r).

Definition execute_select (stmt : Statement) (found : list Row)
  : M Handler (list Row) :=
  fun h => (ok found,
            mkHandler (db h) (lock h) (log h ++ [Execute stmt])%list).

Definition get_by_id (event_id : Z) : M Handler StoredEvent :=
  __lock ;;;
  id <- lift (sql_int event_id) ;;
  h <- (fun h => (ok h, h)) ;;
  record <- execute_select (SelectById event_id)
              (filter (fun r => row_id r =? id) (rows (db h))) ;;
  __release ;;;
  first <- lift (getitem record 0) ;;
  mret (stored_of_row first).

Definition get_all : M Handler (list StoredEvent) :=
  __lock ;;;
  h <- (fun h => (ok h, h)) ;;
  records <- execute_select SelectAll (rows (db h)) ;;
  __release ;;;
  mret (map stored_of_row records).

(** The value of [event["eventEmitted"]]: a dictionary that may hold
    [keys], [data] and other entries. *)
Record EventEmitted : Type := mkEventEmitted {
  ee_keys : option (list string);
  ee_data : option (list string);
  ee_other_entries : bool
}.

(** A [ToriiEvent]; [None] when the dictionary has no [eventEmitted]. *)
Definition ToriiEvent : Type := option EventEmitted.

(** Truth value of a dictionary: it has an entry. *)
Definition dict_truthy (e : EventEmitted) : bool :=
  match ee_keys e, ee_data e with
  | None, None => ee_other_entries e
  | _, _ => true
  end.

Definition __get_event_type (keys : list string) : result string :=
  getitem keys 0.

Definition decode (keys data : list string) : result (ParsedEvent coord) :=
  (event_type <- __get_event_type keys ;;
   if String.eqb event_type (EventKeyHash_COMBAT_OUTCOME D)
   then __parse_combat_outcome_event D keys data
   else __parse_trade_event D keys data)%result.

(** [process_event].  [not keys] holds for a missing entry and for an
    empty list alike.  The parsed event is local to the call, so only
    the handler remains afterwards. *)
Definition process_event (event : ToriiEvent) : M Handler Z :=
  match event with
  | None => mraise (RuntimeError "eventEmitted no present in event")
  | Some event_emitted =>
      if negb (dict_truthy event_emitted)
      then mraise (RuntimeError "eventEmitted no present in event")
      else
        match ee_keys event_emitted with
        | None | Some [] => mraise (RuntimeError "Event had no keys")
        | Some keys =>
            match ee_data event_emitted with
            | None | Some [] => mraise (RuntimeError "Event had no data")
            | Some data =>
                parsed_event <- lift (decode keys data) ;;
                fun h =>
                  let '(r, (_, h')) := __add (parsed_event, h) in (r, h')
            end
        end
  end.

(** The handler after [init] on a path that did not exist: an empty
    table, nothing issued yet, the lock free. *)
Definition empty_connection : Connection := mkConnection [] 0.

Definition fresh_handler : Handler := mkHandler empty_connection Free [].

(** *** Sequences of calls *)

(** Feed the envelopes to [process_event] one after the other, as the
    subscription does; a call that raises does not stop the feed. *)
Fixpoint process_each (events : list ToriiEvent) (h : Handler)
  : list (result Z) * Handler :=
  match events with
  | [] => ([], h)
  | event :: events' =>
      let '(r, h1) := process_event event h in
      let '(rs, h2) := process_each events' h1 in
      (r :: rs, h2)
  end.

End Store.

Arguments Row coord : clear implicits.
Arguments Connection coord : clear implicits.
Arguments Handler coord : clear implicits.
Arguments StoredEvent coord : clear implicits.
Arguments InsertValues coord : clear implicits.
Arguments fresh_handler {coord}.
Arguments empty_connection {coord}.

(** An envelope whose wrapper, [keys] or [data] is missing or empty. *)
Definition missing_or_empty {A} (l : option (list A)) : bool :=
  match l with
  | None | Some [] => true
  | Some (_ :: _) => false
  end.

Definition malformed (event : ToriiEvent) : bool :=
  match event with
  | None => true
  | Some e =>
      (negb (dict_truthy e) || missing_or_empty (ee_keys e)
       || missing_or_empty (ee_data e))%bool
  end.

(** The keys that [__add] turns into columns, in the order in which it
    deletes them, and what is left of a dictionary without them. *)
Definition column_keys : list string :=
  ["type"; "active_pos"; "passive_pos"; "ts"; "importance"].

Definition remainder {coord} (obj : ParsedEvent coord) : ParsedEvent coord :=
  fold_left dict_remove column_keys obj.

(** The values returned by the calls that did not raise. *)
Fixpoint successes {A} (rs : list (result A)) : list A :=
  match rs with
  | [] => []
  | inr a :: rs' => a :: successes rs'
  | inl _ :: rs' => successes rs'
  end.

(** The ids [1, 2, ..., n]. *)
Definition ids_upto (n : nat) : list Z := map Z.of_nat (seq 1 n).

(** The table of a store whose rows were all written by [__add]: the
    ids are 1, 2, ... up to the number of rows, which is also the last
    id issued. *)
Definition ids_dense {coord} (c : Connection coord) : Prop :=
  map row_id (rows c) = ids_upto (List.length (rows c)) /\
  sqlite_sequence c = len (rows c).

(** ** The wire format, as the specification words it *)

(** A length-prefixed array whose count word announces more words than
    remain after it; every element takes [width] words. *)
Definition array_overrun (width : Z) (data : list string) : Prop :=
  exists n, int_at data 0 = ok n /\ len data - 1 < width * n.

(** A CombatOutcome stream: the attacking entity ids (one word each),
    then the stolen resources (two words each). *)
Definition combat_overrun (data : list string) : Prop :=
  array_overrun 1 data \/
  exists n, int_at data 0 = ok n /\ 0 <= n /\
            array_overrun 2 (slice_from data (1 + n)).

(** A TradeAccepted stream: after the two ids, the maker's resources
    and then the taker's. *)
Definition trade_overrun (data : list string) : Prop :=
  let d := slice_from data 2 in
  array_overrun 2 d \/
  exists m, int_at d 0 = ok m /\ 0 <= m /\
            array_overrun 2 (slice_from d (2 * m + 1)).

(** The stream of an envelope overruns: which layout applies follows
    the only test that [process_event] makes on [keys[0]]. *)
Definition stream_overrun {coord} (D : Deps coord) (k0 : string)
    (data : list string) : Prop :=
  if String.eqb k0 (EventKeyHash_COMBAT_OUTCOME D)
  then combat_overrun data
  else trade_overrun data.

(** The failures of a read of the stream: an index past the end, a
    word that is no hexadecimal literal, an amount beyond the floats. *)
Definition is_decode_error (e : exn) : bool :=
  match e with
  | IndexError | ValueError | OverflowError => true
  | _ => false
  end.

(** The failures that [process_event] raises itself when it validates
    the envelope. *)
Definition is_malformed_envelope (e : exn) : bool :=
  match e with
  | RuntimeError msg =>
      (String.eqb msg "eventEmitted no present in event"
       || String.eqb msg "Event had no keys"
       || String.eqb msg "Event had no data")%bool
  | _ => false
  end.

(** Whether a call of [acquire] in this state obtains the lock. *)
Definition obtainable (l : LockState) : bool :=
  match l with
  | Free | HeldElsewhere true => true
  | Held | HeldElsewhere false => false
  end.

(** The lock after a call of [acquire]: held by the caller when it
    was obtained, as it was when the wait ran out. *)
Definition after_acquire (l : LockState) : LockState :=
  if obtainable l then Held else l.

(** ** A sample instance

    Integer coordinates, a registry of two realms and stand-ins for
    the enumerations' values; used to run the methods on concrete
    envelopes. *)
Module Sample.

Definition realms (id : Z) : result (RealmPosition Z) :=
  if id =? 1 then ok (10, 20)
  else if id =? 2 then ok (30, 40)
  else raise (RealmNotFound id).

Definition combat_hash : string := "0xc0ba7".
Definition order_hash : string := "0x07de7".

(** Integer coordinates bind when they fit 64 bits. *)
Definition bind_int (z : Z) : result unit :=
  if (- 2 ^ 63 <=? z) && (z <? 2 ^ 63) then ok tt else raise OverflowError.

Definition deps : Deps Z :=
  mkDeps Z realms combat_hash order_hash 1 2 repr_int bind_int.

Definition envelope (keys data : list string) : ToriiEvent :=
  Some (mkEventEmitted (Some keys) (Some data) true).

(** Two attackers (10 and 11), one stolen resource (type 3, raw
    amount 5000), winner 1, damage 100, timestamp 1700000000. *)
Definition combat_data : list string :=
  ["0x2"; "0xa"; "0xb"; "0x1"; "0x3"; "0x1388"; "0x1"; "0x64"; "0x6553f100"].

Definition combat_event : ToriiEvent :=
  envelope [combat_hash; "0x1"; "0x2"] combat_data.

(** Maker 1, taker 2, one resource each way, timestamp 1700000000. *)
Definition trade_data : list string :=
  ["0x1"; "0x2"; "0x1"; "0x3"; "0x1388"; "0x1"; "0x4"; "0x7d0"; "0x6553f100"].

Definition trade_event : ToriiEvent :=
  envelope [order_hash; "0x7"] trade_data.

(** The same trade-shaped stream under a discriminant that is neither
    of the two known ones. *)
Definition unknown_event : ToriiEvent :=
  envelope ["0xdead"; "0x7"] trade_data.

(** One resource pair of type 3 whose raw amount is
    [1000 * 2 ^ 44 + 999 = 17592186044416999]. *)
Definition large_amount_data : list string :=
  ["0x1"; "0x3"; "0x3e8000000003e7"].

(** A CombatOutcome stream that announces five attackers and carries
    one. *)
Definition truncated_data : list string := ["0x5"; "0xa"].

Definition truncated_event : ToriiEvent :=
  envelope [combat_hash; "0x1"; "0x2"] truncated_data.

(** The event that the decoder builds from [combat_event]. *)
Definition combat_parsed : ParsedEvent Z :=
  [("type", VInt 1); ("active_pos", VPos (10, 20));
   ("passive_pos", VPos (30, 40));
   ("attacking_entity_ids", VList [VInt 10]);
   ("stolen_resources", VList [VDict [("type", VInt 3); ("amount", VInt 5)]]);
   ("winner", VInt 1); ("damage", VInt 100); ("importance", VInt 0);
   ("ts", VInt 1700000000)].

(** A handler whose lock another thread holds beyond the bounded wait. *)
Definition contended_handler : Handler Z :=
  mkHandler empty_connection (HeldElsewhere false) [].

End Sample.

(** ** Well-formed streams *)

(** The words of a resource array, as numbers: the type and the raw
    amount of every pair, in stream order. *)
Definition flat_pairs (vals : list (Z * Z)) : list Z :=
  flat_map (fun v => [fst v; snd v]) vals.

(** The dictionary that the decoder builds for one pair whose raw
    amount is divided exactly. *)
Definition resource_dict {coord} (v : Z * Z) : pyval coord :=
  VDict [("type", VInt (fst v)); ("amount", VInt (snd v / 1000))].

(** The raw amounts for which [int(raw / 1000)] is the integer
    quotient. *)
Definition exact_amount (v : Z * Z) : Prop := 0 <= snd v < 1000 * 2 ^ 44.

(** A CombatOutcome stream that is all there: the count of attackers
    and their ids, the count of stolen resources and their pairs, then
    winner, damage and timestamp, and possibly more words. *)
Definition combat_stream (data : list string) (ids : list Z)
    (vals : list (Z * Z)) (winner damage ts : Z) : Prop :=
  exists cwi idws cwr rws ww dw tw extra,
    data = (cwi :: idws ++ cwr :: rws ++ ww :: dw :: tw :: extra)%list /\
    int16 cwi = ok (len idws) /\
    mapM int16 idws = ok ids /\
    int16 cwr = ok (len vals) /\
    mapM int16 rws = ok (flat_pairs vals) /\
    Forall exact_amount vals /\
    int16 ww = ok winner /\
    int16 dw = ok damage /\
    int16 tw = ok ts.

(** A TradeAccepted stream that is all there: maker, taker, the two
    resource arrays, the timestamp, and possibly more words. *)
Definition trade_stream (data : list string) (maker taker : Z)
    (vals1 vals2 : list (Z * Z)) (ts : Z) : Prop :=
  exists mk tk cw1 ws1 cw2 ws2 tw extra,
    data = (mk :: tk :: cw1 :: ws1 ++ cw2 :: ws2 ++ tw :: extra)%list /\
    int16 mk = ok maker /\
    int16 tk = ok taker /\
    int16 cw1 = ok (len vals1) /\
    mapM int16 ws1 = ok (flat_pairs vals1) /\
    Forall exact_amount vals1 /\
    int16 cw2 = ok (len vals2) /\
    mapM int16 ws2 = ok (flat_pairs vals2) /\
    Forall exact_amount vals2 /\
    int16 tw = ok ts.

(** The entries of a dictionary that are no column of the table. *)
Definition is_column (k : string) : bool := existsb (String.eqb k) column_keys.

Definition non_columns {coord} (obj : ParsedEvent coord) : ParsedEvent coord :=
  filter (fun kv => negb (is_column (fst kv))) obj.

(** ** Start-up of the handler *)

(** [instance]: the class attribute [_instance] holds the one handler
    object, created on the first call by [cls.__new__(cls)]. Objects
    are told apart by their allocation number. *)
Record ClassState : Type := mkClassState {
  _instance : option nat;
  allocated : nat;
  stdout : list string
}.

Definition instance (c : ClassState) : nat * ClassState :=
  match _instance c with
  | None =>
      let o := allocated c in
      (o, mkClassState (Some o) (S (allocated c))
            (stdout c ++ ["Creating db interface"])%list)
  | Some o => (o, c)
  end.

(** [__init__]: the constructor refuses to run. *)
Definition __init__ : result unit :=
  raise (RuntimeError "Call instance() instead").

(** What [init] does with the database file and the registry, in
    order. *)
Inductive StartupAction : Type :=
| Connect (path : string)
| EnableLoadExtension
| LoadSpatialite
| InitSpatialMetaData
| CreateTableEvents
| AddGeometryColumn (column : string)
| InitRealms.

Section Startup.

(** The file system and the database engine, as far as [init] uses
    them: whether a path exists, and what one step of [init] does to
    the file system, or the exception that it raises. *)
Variable FS : Type.
Variable path_exists : FS -> string -> bool.
Variable perform : StartupAction -> FS -> result unit * FS.

(** The steps that were started so far, and the file system. *)
Definition Startup : Type := (list StartupAction * FS)%type.

Definition step (a : StartupAction) : M Startup unit :=
  fun st =>
    let '(r, fs') := perform a (snd st) in
    (r, ((fst st ++ [a])%list, fs')).

Definition __load_sqlean (path : string) : M Startup unit :=
  (step (Connect path) ;;;
   step EnableLoadExtension ;;;
   step LoadSpatialite)%M.

Definition __init_db : M Startup unit := step InitSpatialMetaData.

Definition __use_initial_queries : M Startup unit :=
  (step CreateTableEvents ;;;
   step (AddGeometryColumn "active_pos") ;;;
   step (AddGeometryColumn "passive_pos"))%M.

Definition init (path : string) : M Startup unit :=
  fun st =>
    let db_first_launch := negb (path_exists (snd st) path) in
    (__load_sqlean path ;;;
     (if db_first_launch then (__init_db ;;; __use_initial_queries)%M
      else mret tt) ;;;
     step InitRealms)%M st.

End Startup.

(** The statements that define the schema. *)
Definition is_schema_action (a : StartupAction) : bool :=
  match a with
  | InitSpatialMetaData | CreateTableEvents | AddGeometryColumn _ => true
  | _ => false
  end.

(** ** [config.py] *)

Module config.

(** What [os.environ.get] returns: [None] or a string. *)
Inductive pyobj : Type :=
| PyNone
| PyStr (s : string).

Definition str (o : pyobj) : string :=
  match o with
  | PyNone => "None"
  | PyStr s => s
  end.

Definition is_None (o : pyobj) : bool :=
  match o with
  | PyNone => true
  | PyStr _ => false
  end.

Definition Environ : Type := string -> pyobj.

(** A handler of the logger [overlore]: where it writes; every handler
    that [setup_logging] makes has the level DEBUG and the one
    format.  A [FileHandler] is taken to open its file. *)
Inductive LogHandler : Type :=
| FileHandler (path : string)
| StreamHandler.

Inductive Level : Type :=
| NOTSET
| DEBUG.

Record Logger : Type := mkLogger {
  logger_level : Level;
  logger_handlers : list LogHandler
}.

Definition setup_logging (log_to_file : option string) (lg : Logger) : Logger :=
  let handler :=
    match log_to_file with
    | Some path => FileHandler path
    | None => StreamHandler
    end in
  mkLogger DEBUG (logger_handlers lg ++ [handler])%list.

(** The namespace that [parser.parse_args()] returns. *)
Record Args : Type := mkArgs {
  args_mock : bool;
  args_prod : bool;
  args_address : string;
  args_port : Z;
  args_world_db : string;
  args_logging_file : option string
}.

Record Config : Type := mkConfig {
  address : string;
  port : Z;
  world_db : string;
  prod : bool;
  mock : bool;
  OPENAI_API_KEY : pyobj;
  TORII_WS : pyobj;
  TORII_GRAPHQL : pyobj;
  KATANA_URL : pyobj
}.

Section Load.

(** [load_dotenv(dotenv_path=...)] of the dotenv package: the
    environment after the file at that path was read (a missing file
    changes nothing). *)
Variable load_dotenv : string -> Environ -> Environ.

(** [load], with [_get_args] inlined after the parsing of the command
    line: the logger and the environment are the state; the result is
    the configuration object, or the exception. *)
Definition load (args : Args) (lg : Logger) (environ : Environ)
  : result Config * Logger * Environ :=
  let lg' := setup_logging (args_logging_file args) lg in
  let dotenv_path :=
    if args_prod args then ".env.production" else ".env.development" in
  let environ' := load_dotenv dotenv_path environ in
  let torii_ws := PyStr (str (environ' "TORII_WS")) in
  let katana_url := PyStr (str (environ' "KATANA_URL")) in
  let torii_graphql := PyStr (str (environ' "TORII_GRAPHQL")) in
  let openai_api_key :=
    if is_None (environ' "OPENAI_API_KEY") then PyStr "OpenAI API Key"
    else PyStr (str (environ' "OPENAI_API_KEY")) in
  if is_None torii_ws
  then (raise (RuntimeError "Failure to provide WS url"), lg', environ')
  else if is_None torii_graphql
  then (raise (RuntimeError "Failure to provide graphql url"), lg', environ')
  else
    (ok (mkConfig (args_address args) (args_port args) (args_world_db args)
           (args_prod args) (args_mock args) openai_api_key torii_ws
           torii_graphql katana_url),
     lg', environ').

End Load.

End config.

(** ** Further sample data *)
Module Cases.

(** A file system given by the list of the paths that exist and by
    whether the SpatiaLite module is installed.  Connecting creates
    the file; loading the module raises when it is not installed. *)
Definition Disk : Type := (list string * bool)%type.

Definition listed (fs : Disk) (path : string) : bool :=
  existsb (String.eqb path) (fst fs).

Definition run_step (a : StartupAction) (fs : Disk) : result unit * Disk :=
  match a with
  | Connect path =>
      (ok tt, if listed fs path then fs else (path :: fst fs, snd fs))
  | LoadSpatialite =>
      if snd fs then (ok tt, fs)
      else (raise (OperationalError "mod_spatialite: cannot open"), fs)
  | _ => (ok tt, fs)
  end.

(** A CombatOutcome stream that announces five attackers and whose
    second word is no number. *)
Definition misspelt_data : list string := ["0x5"; "zz"].

(** A registry that knows realm 1 only. *)
Definition one_realm (id : Z) : result (RealmPosition Z) :=
  if id =? 1 then ok (10, 20) else raise (RealmNotFound id).

Definition deps_one_realm : Deps Z :=
  mkDeps Z one_realm Sample.combat_hash Sample.order_hash 1 2 repr_int
    Sample.bind_int.

(** The event that the decoder builds from [Sample.trade_event]. *)
Definition trade_parsed : ParsedEvent Z :=
  [("type", VInt 2); ("active_pos", VPos (10, 20));
   ("passive_pos", VPos (30, 40));
   ("resources_maker", VList [VDict [("type", VInt 3); ("amount", VInt 5)]]);
   ("resources_taker", VList [VDict [("type", VInt 4); ("amount", VInt 2)]]);
   ("importance", VInt 0); ("ts", VInt 1700000000)].

(** An environment with the feed's address only, and a dotenv loader
    that finds no file. *)
Definition bare_environ : config.Environ :=
  fun k => if String.eqb k "TORII_WS" then config.PyStr "ws://torii"
           else config.PyNone.

Definition no_dotenv (path : string) (e : config.Environ) : config.Environ := e.

Definition default_args : config.Args :=
  config.mkArgs false false "localhost" 8766 "/litefs/world.db" None.

(** The event of [Sample.combat_parsed] with a timestamp of 2 ^ 64. *)
Definition late_parsed : ParsedEvent Z :=
  [("type", VInt 1); ("active_pos", VPos (10, 20));
   ("passive_pos", VPos (30, 40));
   ("attacking_entity_ids", VList [VInt 10]);
   ("stolen_resources", VList [VDict [("type", VInt 3); ("amount", VInt 5)]]);
   ("winner", VInt 1); ("damage", VInt 100); ("importance", VInt 0);
   ("ts", VInt (2 ^ 64))].

(** The store after [Sample.combat_event] went into a fresh one, and
    the stored event that it holds. *)
Definition stored_combat_handler : Handler Z :=
  snd (process_event Sample.deps Sample.combat_event fresh_handler).

Definition stored_combat : StoredEvent Z :=
  mkStoredEvent 1 1 4 1700000000
    (json_dumps repr_int (VDict (non_columns Sample.combat_parsed)))
    (10, 20) (30, 40).

End Cases.

(** * Properties *)

(** ** The two monads *)

Lemma rbind_ok_inv {A B} (m : result A) (f : A -> result B) (b : B) :
  rbind m f = inr b -> exists a, m = inr a /\ f a = inr b.
Proof.
  destruct m as [e | a]; simpl; intros H.
  - discriminate.
  - exists a; split; [reflexivity | exact H].
Qed.

Lemma rbind_err_inv {A B} (m : result A) (f : A -> result B) (e : exn) :
  rbind m f = inl e -> m = inl e \/ exists a, m = inr a /\ f a = inl e.
Proof.
  destruct m as [e' | a]; simpl; intros H.
  - left; congruence.
  - right; exists a; split; [reflexivity | exact H].
Qed.

(** Peel a chain of successful binds off a hypothesis [E], forgetting
    the intermediate equations. *)
Ltac rbind_inv E :=
  repeat (apply rbind_ok_inv in E;
          let x := fresh "x" in
          destruct E as (x & _ & E); try destruct x as [? ?]).

(** ** Dictionaries *)

Section DictFacts.

Context {coord : Type}.
Implicit Types (d : dict coord) (k : string).

Lemma dict_get_remove_same d k : dict_get (dict_remove d k) k = None.
Proof.
  induction d as [| [k' v] d IH]; simpl; [reflexivity |].
  destruct (String.eqb k' k) eqn:E; simpl; [exact IH |].
  rewrite E; exact IH.
Qed.

Lemma dict_get_remove_other d k k' :
  k <> k' -> dict_get (dict_remove d k') k = dict_get d k.
Proof.
  intros Hne. induction d as [| [k0 v] d IH]; simpl; [reflexivity |].
  destruct (String.eqb k0 k') eqn:E; simpl.
  - apply String.eqb_eq in E; subst k0.
    destruct (String.eqb k' k) eqn:E'.
    + apply String.eqb_eq in E'; congruence.
    + exact IH.
  - destruct (String.eqb k0 k); [reflexivity | exact IH].
Qed.

Lemma has_key_remove_same d k : has_key (dict_remove d k) k = false.
Proof. unfold has_key; rewrite dict_get_remove_same; reflexivity. Qed.

Lemma has_key_remove d k k' :
  has_key d k = false -> has_key (dict_remove d k') k = false.
Proof.
  unfold has_key. destruct (String.eqb k k') eqn:E.
  - apply String.eqb_eq in E; subst; rewrite dict_get_remove_same; reflexivity.
  - apply String.eqb_neq in E; rewrite dict_get_remove_other by exact E; auto.
Qed.

(** None of the five column keys survives the deletions. *)
Lemma remainder_has_no_column d k :
  In k column_keys -> has_key (remainder d) k = false.
Proof.
  unfold remainder, column_keys; simpl.
  intros H; repeat (destruct H as [H | H]; [subst k |]); [.. | contradiction];
    repeat first [apply has_key_remove_same | apply has_key_remove].
Qed.

Lemma remainder_keeps d k :
  ~ In k column_keys -> dict_get (remainder d) k = dict_get d k.
Proof.
  unfold remainder, column_keys; simpl; intros Hn.
  rewrite !dict_get_remove_other; [reflexivity | ..];
    intros E; apply Hn; subst k; tauto.
Qed.

End DictFacts.

(** ** The store's methods *)

Section StoreFacts.

Context {coord : Type}.
Variable D : Deps coord.
Implicit Types (h : Handler coord) (obj : ParsedEvent coord).

(** The pair [x = obj[k]; del obj[k]] of [__add] on a key that is
    there. *)
Lemma pop_column {T A} k v (K : pyval coord -> M (ParsedEvent coord * T) A)
    obj (t : T) :
  dict_get obj k = Some v ->
  mbind (read_fst (fun o => dict_item o k))
    (fun x => mbind (on_fst (fun o => dict_del o k)) (fun _ => K x)) (obj, t)
  = K v (dict_remove obj k, t).
Proof.
  intros H. unfold mbind, read_fst, on_fst, dict_item, dict_del, has_key.
  simpl. rewrite H. reflexivity.
Qed.

(** [__insert] with parameters that bind: one row more, under the next
    id, and the lock is free afterwards whatever it was before. *)
Lemma insert_ok (v : InsertValues coord) h :
  __insert (ok v) h =
  (ok (sqlite_sequence (db h) + 1),
   mkHandler
     (mkConnection
        (rows (db h) ++
         [mkRow (sqlite_sequence (db h) + 1) (iv_type v) (iv_importance v)
            (iv_ts v) (iv_metadata v) (iv_active_pos v) (iv_passive_pos v)])
        (sqlite_sequence (db h) + 1))
     Free
     (log h ++ [Acquire (obtainable (lock h)); Execute InsertEvent; Commit;
                Release])).
Proof.
  assert (E : forall z : Z, (if z =? 0 then 0 else z) = z).
  { intros z. destruct (z =? 0) eqn:Ez; [apply Z.eqb_eq in Ez; lia | reflexivity]. }
  destruct h as [c l g].
  destruct l as [| | []]; cbv [__insert __lock __release mbind acquire release
    record lift execute_insert mret ok db lock log obtainable];
    rewrite E; rewrite <- !app_assoc; reflexivity.
Qed.

(** With a parameter that does not bind, the statement raises between
    [__lock] and [__release]: no row is written. *)
Lemma insert_unbound (e : exn) h :
  exists l g, __insert (inl e) h = (inl e, mkHandler (db h) l g).
Proof.
  destruct h as [c l g].
  destruct l as [| | []]; cbv [__insert __lock mbind acquire record lift db lock log];
    eexists _, _; reflexivity.
Qed.

(** What [__add] leaves of the caller's dictionary when the five
    column keys are there: they are deleted before anything can raise. *)
Lemma add_leaves_remainder obj h :
  (forall k, In k column_keys -> has_key obj k = true) ->
  fst (snd (__add D (obj, h))) = remainder obj.
Proof.
  intros Hk.
  assert (G : forall k, In k column_keys -> exists v, dict_get obj k = Some v).
  { intros k Hin. specialize (Hk k Hin). unfold has_key in Hk.
    destruct (dict_get obj k) as [v |]; [exists v; reflexivity | discriminate]. }
  destruct (G "type") as [v1 H1]; [simpl; tauto |].
  destruct (G "active_pos") as [v2 H2]; [simpl; tauto |].
  destruct (G "passive_pos") as [v3 H3]; [simpl; tauto |].
  destruct (G "ts") as [v4 H4]; [simpl; tauto |].
  destruct (G "importance") as [v5 H5]; [simpl; tauto |].
  unfold __add.
  rewrite (pop_column "type" v1) by exact H1.
  rewrite (pop_column "active_pos" v2)
    by (rewrite !dict_get_remove_other by discriminate; exact H2).
  rewrite (pop_column "passive_pos" v3)
    by (rewrite !dict_get_remove_other by discriminate; exact H3).
  rewrite (pop_column "ts" v4)
    by (rewrite !dict_get_remove_other by discriminate; exact H4).
  rewrite (pop_column "importance" v5)
    by (rewrite !dict_get_remove_other by discriminate; exact H5).
  unfold mbind, read_fst, lift, on_snd; simpl.
  destruct (json_dumps_call _ _); [reflexivity |].
  destruct (as_position v2); [reflexivity |].
  destruct (as_position v3); [reflexivity |].
  simpl. destruct (__insert _ h); reflexivity.
Qed.

(** [__add] on a well-typed event: the dictionary loses its column
    keys; when the rest cannot be printed the call raises there, and
    otherwise [__insert] receives the values to bind. *)
Lemma add_typed obj h t a p s :
  dict_get obj "type" = Some (VInt t) ->
  dict_get obj "active_pos" = Some (VPos a) ->
  dict_get obj "passive_pos" = Some (VPos p) ->
  dict_get obj "ts" = Some (VInt s) ->
  has_key obj "importance" = true ->
  __add D (obj, h) =
  match json_dumps_call (repr_coord D) (VDict (remainder obj)) with
  | inl e => (inl e, (remainder obj, h))
  | inr text =>
      (fst (__insert (bind_values D (VInt t) (VInt s) text a p) h),
       (remainder obj,
        snd (__insert (bind_values D (VInt t) (VInt s) text a p) h)))
  end.
Proof.
  intros H1 H2 H3 H4 H5.
  unfold has_key in H5.
  destruct (dict_get obj "importance") as [v5 |] eqn:E5; [| discriminate].
  unfold __add.
  rewrite (pop_column "type" (VInt t)) by exact H1.
  rewrite (pop_column "active_pos" (VPos a))
    by (rewrite !dict_get_remove_other by discriminate; exact H2).
  rewrite (pop_column "passive_pos" (VPos p))
    by (rewrite !dict_get_remove_other by discriminate; exact H3).
  rewrite (pop_column "ts" (VInt s))
    by (rewrite !dict_get_remove_other by discriminate; exact H4).
  rewrite (pop_column "importance" v5)
    by (rewrite !dict_get_remove_other by discriminate; exact E5).
  unfold mbind, read_fst, lift, on_snd, as_position. cbn [fst snd].
  change (dict_remove
            (dict_remove
               (dict_remove (dict_remove (dict_remove obj "type") "active_pos")
                  "passive_pos") "ts") "importance")
    with (remainder obj).
  destruct (json_dumps_call (repr_coord D) (VDict (remainder obj)));
    [reflexivity |].
  unfold ok. cbv beta iota.
  destruct (__insert _ h); reflexivity.
Qed.

(** The values bind when the two integers fit and the driver accepts
    the four coordinates. *)
Lemma bind_values_ok t s text (a p : RealmPosition coord) :
  sql_int t = ok t ->
  sql_int s = ok s ->
  bind_coord D (fst a) = ok tt ->
  bind_coord D (snd a) = ok tt ->
  bind_coord D (fst p) = ok tt ->
  bind_coord D (snd p) = ok tt ->
  bind_values D (VInt t) (VInt s) text a p
  = ok (mkInsertValues t 4 s text a p).
Proof.
  intros Ht Hs H1 H2 H3 H4. unfold bind_values, sql_int_param.
  rewrite Ht, Hs, H1, H2, H3, H4. reflexivity.
Qed.

(** Whatever binds carries the constant 4 and the values it was made
    of. *)
Lemma bind_values_inv (vt vs : pyval coord) text (a p : RealmPosition coord)
    (v : InsertValues coord) :
  bind_values D vt vs text a p = ok v ->
  exists t s, vt = VInt t /\ vs = VInt s /\
              v = mkInsertValues t 4 s text a p.
Proof.
  unfold bind_values, sql_int_param, sql_int. intros H.
  destruct vt as [t | | |]; try discriminate.
  destruct ((- 2 ^ 63 <=? t) && (t <? 2 ^ 63)); [| discriminate].
  cbn [rbind ok] in H.
  destruct vs as [s | | |]; try discriminate.
  destruct ((- 2 ^ 63 <=? s) && (s <? 2 ^ 63)); [| discriminate].
  cbn [rbind ok] in H.
  destruct (bind_coord D (fst a)) as [| []]; [discriminate |].
  destruct (bind_coord D (snd a)) as [| []]; [discriminate |].
  destruct (bind_coord D (fst p)) as [| []]; [discriminate |].
  destruct (bind_coord D (snd p)) as [| []]; [discriminate |].
  cbn [rbind ok] in H.
  injection H as <-. exists t, s. repeat split.
Qed.

(** When, moreover, the rest prints and the values bind: the row that
    is written and the id that is returned. *)
Lemma add_ok obj h t a p s :
  dict_get obj "type" = Some (VInt t) ->
  dict_get obj "active_pos" = Some (VPos a) ->
  dict_get obj "passive_pos" = Some (VPos p) ->
  dict_get obj "ts" = Some (VInt s) ->
  has_key obj "importance" = true ->
  printable (VDict (remainder obj)) = true ->
  sql_int t = ok t ->
  sql_int s = ok s ->
  bind_coord D (fst a) = ok tt ->
  bind_coord D (snd a) = ok tt ->
  bind_coord D (fst p) = ok tt ->
  bind_coord D (snd p) = ok tt ->
  __add D (obj, h) =
  (ok (sqlite_sequence (db h) + 1),
   (remainder obj,
    mkHandler
      (mkConnection
         (rows (db h) ++
          [mkRow (sqlite_sequence (db h) + 1) t 4 s
             (json_dumps (repr_coord D) (VDict (remainder obj))) a p])
         (sqlite_sequence (db h) + 1))
      Free
      (log h ++ [Acquire (obtainable (lock h)); Execute InsertEvent; Commit;
                 Release]))).
Proof.
  intros H1 H2 H3 H4 H5 Hprint Ht Hs Hb1 Hb2 Hb3 Hb4.
  assert (E : json_dumps_call (repr_coord D) (VDict (remainder obj))
             = inr (json_dumps (repr_coord D) (VDict (remainder obj))))
    by (unfold json_dumps_call; rewrite Hprint; reflexivity).
  rewrite (add_typed obj h t a p s H1 H2 H3 H4 H5), E.
  rewrite (bind_values_ok t s _ a p Ht Hs Hb1 Hb2 Hb3 Hb4).
  rewrite insert_ok. reflexivity.
Qed.

(** [__add] either raises before it reaches the connection, or hands
    [__insert] a tuple of values whose importance is the constant 4. *)
Lemma add_factors obj h :
  (exists e obj', __add D (obj, h) = (inl e, (obj', h))) \/
  (exists (v : result (InsertValues coord)) obj',
      (forall v0, v = inr v0 -> iv_importance v0 = 4) /\
      __add D (obj, h) = (fst (__insert v h), (obj', snd (__insert v h)))).
Proof.
  unfold __add, mbind, read_fst, on_fst, lift, on_snd; simpl.
  repeat
    (match goal with
     | |- context [match dict_item ?o ?k with _ => _ end] =>
         destruct (dict_item o k)
     | |- context [match dict_del ?o ?k with _ => _ end] =>
         destruct (dict_del o k)
     | |- context [match json_dumps_call ?r ?v with _ => _ end] =>
         destruct (json_dumps_call r v)
     | |- context [match as_position ?v with _ => _ end] =>
         destruct (as_position v)
     end; simpl; [left; eexists _, _; reflexivity |]).
  right.
  match goal with
  | |- context [__insert ?v h] => exists v
  end.
  eexists. split.
  - intros v0 Hv. apply bind_values_inv in Hv.
    destruct Hv as (t0 & s0 & _ & _ & ->). reflexivity.
  - destruct (__insert _ h); reflexivity.
Qed.

(** Whenever [__add] returns, the row it wrote carries the returned id
    and the importance 4, and nothing else changed in the table. *)
Lemma add_returns_inv obj h id obj' h' :
  __add D (obj, h) = (inr id, (obj', h')) ->
  id = sqlite_sequence (db h) + 1 /\
  sqlite_sequence (db h') = id /\
  exists r, rows (db h') = (rows (db h) ++ [r])%list /\
            row_id r = id /\ row_importance r = 4.
Proof.
  intros H.
  destruct (add_factors obj h) as [(e & o & E) | (v & o & Hv & E)];
    rewrite E in H; [discriminate |].
  destruct v as [e | v0].
  - destruct (insert_unbound e h) as (l & g & E'). rewrite E' in H.
    discriminate.
  - rewrite insert_ok in H. simpl in H. injection H as <- <- <-. simpl.
    split; [reflexivity |]. split; [reflexivity |].
    eexists; split; [reflexivity |]. split; [reflexivity |].
    simpl. apply Hv. reflexivity.
Qed.

(** When [__add] raises, the table is as it was. *)
Lemma add_raises_inv obj h e obj' h' :
  __add D (obj, h) = (inl e, (obj', h')) -> db h' = db h.
Proof.
  intros H.
  destruct (add_factors obj h) as [(e0 & o & E) | (v & o & _ & E)];
    rewrite E in H.
  - injection H as _ _ <-. reflexivity.
  - destruct v as [e1 | v0].
    + destruct (insert_unbound e1 h) as (l & g & E'). rewrite E' in H.
      simpl in H. injection H as _ _ <-. reflexivity.
    + rewrite insert_ok in H. discriminate.
Qed.

(** Whenever [__add] returns on a well-typed event, the row it wrote
    holds the event's type, timestamp and positions, the constant 4
    and the text of the other entries. *)
Lemma add_returns_typed obj h t a p s id obj' h' :
  dict_get obj "type" = Some (VInt t) ->
  dict_get obj "active_pos" = Some (VPos a) ->
  dict_get obj "passive_pos" = Some (VPos p) ->
  dict_get obj "ts" = Some (VInt s) ->
  has_key obj "importance" = true ->
  __add D (obj, h) = (inr id, (obj', h')) ->
  id = sqlite_sequence (db h) + 1 /\
  h' = mkHandler
         (mkConnection
            (rows (db h) ++
             [mkRow id t 4 s
                (json_dumps (repr_coord D) (VDict (remainder obj))) a p])
            id)
         Free
         (log h ++ [Acquire (obtainable (lock h)); Execute InsertEvent; Commit;
                    Release]).
Proof.
  intros H1 H2 H3 H4 H5 H.
  rewrite (add_typed obj h t a p s H1 H2 H3 H4 H5) in H.
  unfold json_dumps_call in H.
  destruct (printable (VDict (remainder obj))); [| discriminate].
  unfold ok in H at 1. cbv beta iota in H.
  destruct (bind_values D (VInt t) (VInt s) _ a p) as [e | v] eqn:Ev.
  - destruct (insert_unbound e h) as (l & g & E'). rewrite E' in H.
    discriminate.
  - apply bind_values_inv in Ev. destruct Ev as (t0 & s0 & Et & Es & ->).
    injection Et as <-. injection Es as <-.
    rewrite insert_ok in H. cbn [fst snd] in H.
    injection H as <- _ <-. split; reflexivity.
Qed.

(** [get_all] returns the rows in table order, in every lock state. *)
Lemma get_all_spec h :
  get_all h =
  (ok (map stored_of_row (rows (db h))),
   mkHandler (db h) Free
     (log h ++ [Acquire (obtainable (lock h)); Execute SelectAll; Release])).
Proof.
  destruct h as [c l g].
  destruct l as [| | []]; cbv [get_all __lock __release mbind acquire release
    record execute_select mret ok db lock log obtainable];
    rewrite <- !app_assoc; reflexivity.
Qed.

(** [get_by_id] returns the first row under that id, or raises
    [IndexError] on the empty answer, after the lock was released. *)
Lemma get_by_id_spec event_id h :
  sql_int event_id = ok event_id ->
  get_by_id event_id h =
  (match filter (fun r => row_id r =? event_id) (rows (db h)) with
   | [] => raise IndexError
   | r :: _ => ok (stored_of_row r)
   end,
   mkHandler (db h) Free
     (log h ++ [Acquire (obtainable (lock h)); Execute (SelectById event_id);
                Release])).
Proof.
  intros Hid. destruct h as [c l g].
  destruct l as [| | []]; unfold get_by_id, __lock, __release, mbind, acquire,
    release, record, execute_select, mret, lift; simpl; rewrite Hid; simpl;
    rewrite <- !app_assoc; simpl;
    destruct (filter _ (rows c)); reflexivity.
Qed.

(** The outcome of [process_event] on the table: a call that returns
    wrote exactly one row, under the id it returns; a call that raises
    wrote nothing. *)
Lemma process_event_outcome event h :
  match process_event D event h with
  | (inr id, h') =>
      id = sqlite_sequence (db h) + 1 /\ sqlite_sequence (db h') = id /\
      exists r, rows (db h') = (rows (db h) ++ [r])%list /\
                row_id r = id /\ row_importance r = 4
  | (inl _, h') => db h' = db h
  end.
Proof.
  unfold process_event.
  destruct event as [e |]; [| reflexivity].
  destruct (negb (dict_truthy e)); [reflexivity |].
  destruct (ee_keys e) as [[| k ks] |]; try reflexivity.
  destruct (ee_data e) as [[| d ds] |]; try reflexivity.
  unfold mbind, lift.
  destruct (decode D (k :: ks) (d :: ds)) as [err | ev]; [reflexivity |].
  destruct (__add D (ev, h)) as [[err | id] [obj' h']] eqn:E.
  - eapply add_raises_inv; exact E.
  - eapply add_returns_inv; exact E.
Qed.

End StoreFacts.

(** ** Ids *)

Lemma ids_upto_succ (n : nat) :
  ids_upto (S n) = (ids_upto n ++ [Z.of_nat (S n)])%list.
Proof.
  unfold ids_upto. rewrite seq_S, map_app. reflexivity.
Qed.

Lemma seq_increasing (a n : nat) :
  StronglySorted Z.lt (map Z.of_nat (seq a n)).
Proof.
  revert a. induction n as [| n IH]; intros a; simpl; constructor.
  - apply IH.
  - apply Forall_forall. intros x Hx.
    apply in_map_iff in Hx. destruct Hx as (y & <- & Hy).
    apply in_seq in Hy. lia.
Qed.

Lemma sorted_lt_nodup (l : list Z) : StronglySorted Z.lt l -> NoDup l.
Proof.
  induction 1 as [| a l Hs IH Hf]; constructor; [| exact IH].
  intros Hin. rewrite Forall_forall in Hf. specialize (Hf a Hin). lia.
Qed.

Section Feed.

Context {coord : Type}.
Variable D : Deps coord.

(** One call keeps the ids dense; a call that returns issues the id
    after the number of rows. *)
Lemma process_event_dense event (h : Handler coord) :
  ids_dense (db h) ->
  ids_dense (db (snd (process_event D event h))) /\
  match fst (process_event D event h) with
  | inr id =>
      id = Z.of_nat (S (List.length (rows (db h)))) /\
      List.length (rows (db (snd (process_event D event h))))
      = S (List.length (rows (db h)))
  | inl _ => db (snd (process_event D event h)) = db h
  end.
Proof.
  intros [Hids Hseq]. unfold len in Hseq.
  pose proof (process_event_outcome D event h) as H.
  destruct (process_event D event h) as [[e | id] h']; simpl.
  - rewrite H. split; [split; assumption | reflexivity].
  - destruct H as (Hid & Hseq' & r & Hrows & Hr & _).
    assert (Hlen : List.length (rows (db h')) = S (List.length (rows (db h)))).
    { rewrite Hrows, length_app. simpl. lia. }
    split; [split |].
    + rewrite Hlen, ids_upto_succ, Hrows, map_app, Hids. simpl.
      rewrite Hr, Hid, Hseq. do 2 f_equal. lia.
    + unfold len. rewrite Hseq', Hlen, Hid, Hseq. lia.
    + split; [rewrite Hid, Hseq; lia | exact Hlen].
Qed.

(** A feed of envelopes: the calls that return are numbered
    consecutively after the rows already there. *)
Lemma process_each_dense events : forall h : Handler coord,
  ids_dense (db h) ->
  let n := List.length (rows (db h)) in
  let ids := successes (fst (process_each D events h)) in
  let h' := snd (process_each D events h) in
  ids = map Z.of_nat (seq (S n) (List.length ids)) /\
  ids_dense (db h') /\
  List.length (rows (db h')) = (n + List.length ids)%nat.
Proof.
  induction events as [| event events IH]; intros h Hd; simpl.
  - repeat split; try apply Hd. lia.
  - destruct (process_event_dense event h Hd) as [Hd1 Hr].
    destruct (process_event D event h) as [r h1]; simpl in Hd1, Hr.
    specialize (IH h1 Hd1). simpl in IH.
    destruct (process_each D events h1) as [rs h2]; simpl in IH |- *.
    destruct IH as (Hids & Hd2 & Hlen).
    destruct r as [e | id]; simpl.
    + rewrite Hr in Hids, Hlen. repeat split; assumption || apply Hd2.
    + destruct Hr as [Hid Hl1]. rewrite Hl1 in Hids, Hlen.
      split; [| split; [exact Hd2 | lia]].
      rewrite Hid. f_equal. exact Hids.
Qed.

End Feed.

(** ** Envelope validation and dispatch *)

(** C8. An envelope whose [eventEmitted] wrapper, [keys] or [data] is
    missing or empty makes [process_event] raise one of its three
    envelope errors before anything is decoded or inserted: the handler
    (table, lock and log of statements) is exactly as before, so the
    number of rows is unchanged. *)
Theorem malformed_envelope_rejected {coord} (D : Deps coord)
    (event : ToriiEvent) (h : Handler coord) :
  malformed event = true ->
  exists e, process_event D event h = (inl e, h) /\
            is_malformed_envelope e = true /\
            List.length (rows (db (snd (process_event D event h))))
            = List.length (rows (db h)).
Proof.
  intros Hm. unfold process_event.
  destruct event as [[ks ds o] |]; simpl in *.
  - destruct (dict_truthy (mkEventEmitted ks ds o)) eqn:Et; simpl in *.
    + destruct ks as [[| k ks] |]; simpl in *;
        try (eexists; repeat split; reflexivity).
      destruct ds as [[| d ds] |]; simpl in *;
        try (eexists; repeat split; reflexivity).
      discriminate.
    + eexists; repeat split; reflexivity.
  - eexists; repeat split; reflexivity.
Qed.

Lemma malformed_envelope_rejected_witness :
  exists e,
    process_event Sample.deps (Some (mkEventEmitted (Some ["0x1"]) None true))
      fresh_handler = (inl e, fresh_handler) /\
    is_malformed_envelope e = true /\
    List.length
      (rows (db (snd (process_event Sample.deps
                        (Some (mkEventEmitted (Some ["0x1"]) None true))
                        fresh_handler))))
    = List.length (rows (db (@fresh_handler Z))).
Proof.
  apply (malformed_envelope_rejected Sample.deps
           (Some (mkEventEmitted (Some ["0x1"]) None true)) fresh_handler).
  reflexivity.
Defined.

(** C3, as stated, fails: an envelope whose discriminant is neither of
    the two known hashes, over a trade-shaped stream, does not raise;
    it is stored as row 1 with the ORDER_ACCEPTED type. *)
Lemma unknown_discriminant_is_stored :
  "0xdead" <> EventKeyHash_COMBAT_OUTCOME Sample.deps /\
  "0xdead" <> EventKeyHash_ORDER_ACCEPTED Sample.deps /\
  fst (process_event Sample.deps Sample.unknown_event fresh_handler) = ok 1 /\
  map row_type
    (rows (db (snd (process_event Sample.deps Sample.unknown_event
                      fresh_handler))))
  = [SqLiteEventType_ORDER_ACCEPTED Sample.deps].
Proof.
  repeat split; try discriminate; vm_compute; reflexivity.
Qed.

(** ** Locking *)

Section LockFacts.

Context {coord : Type}.
Implicit Types (h : Handler coord).

(** [__insert] with a parameter that does not bind: the statement
    raises after [__lock], and neither commit nor [__release] runs. *)
Lemma insert_raises (e : exn) h :
  __insert (inl e) h
  = (@inl exn Z e,
     mkHandler (db h) (after_acquire (lock h))
       (log h ++ [Acquire (obtainable (lock h))])).
Proof.
  destruct h as [c l g]. destruct l as [| | []]; reflexivity.
Qed.

(** [get_by_id] with an id that does not bind: the same. *)
Lemma get_by_id_raises (event_id : Z) (e : exn) h :
  sql_int event_id = inl e ->
  get_by_id event_id h
  = (inl e,
     mkHandler (db h) (after_acquire (lock h))
       (log h ++ [Acquire (obtainable (lock h))])).
Proof.
  intros He. destruct h as [c l g].
  destruct l as [| | []]; unfold get_by_id, __lock, mbind, acquire, record,
    lift; simpl; rewrite He; reflexivity.
Qed.

End LockFacts.

(** C9, as the code has it.  Each of the three operations that touch
    the connection calls [acquire], with its bounded wait, before its
    statement, and the outcome of [acquire] is only logged, never
    tested: obtained or not, the statement is issued.  When the
    parameters of the statement bind, [release] follows right after the
    statement (and the commit of an insert), the lock is free
    afterwards and the operation has its usual result.  When a
    parameter does not bind, the statement raises, [release] is never
    called, and the lock stays as [acquire] left it.  [__add] reaches
    the handler through [__insert] only. *)
Theorem store_operations_lock_discipline {coord} (D : Deps coord)
    (h : Handler coord) :
  (forall v : InsertValues coord,
      fst (__insert (ok v) h) = ok (sqlite_sequence (db h) + 1) /\
      lock (snd (__insert (ok v) h)) = Free /\
      log (snd (__insert (ok v) h))
      = (log h ++ [Acquire (obtainable (lock h)); Execute InsertEvent; Commit;
                   Release])%list) /\
  (forall e : exn,
      __insert (inl e) h
      = (@inl exn Z e,
         mkHandler (db h) (after_acquire (lock h))
           (log h ++ [Acquire (obtainable (lock h))]))) /\
  (forall obj : ParsedEvent coord,
      (exists e obj', __add D (obj, h) = (inl e, (obj', h))) \/
      (exists values obj',
          __add D (obj, h)
          = (fst (__insert values h), (obj', snd (__insert values h))))) /\
  (forall event_id : Z,
      sql_int event_id = ok event_id ->
      lock (snd (get_by_id event_id h)) = Free /\
      log (snd (get_by_id event_id h))
      = (log h ++ [Acquire (obtainable (lock h));
                   Execute (SelectById event_id); Release])%list) /\
  (forall (event_id : Z) (e : exn),
      sql_int event_id = inl e ->
      get_by_id event_id h
      = (inl e,
         mkHandler (db h) (after_acquire (lock h))
           (log h ++ [Acquire (obtainable (lock h))]))) /\
  (fst (get_all h) = ok (map stored_of_row (rows (db h))) /\
   lock (snd (get_all h)) = Free /\
   log (snd (get_all h))
   = (log h ++ [Acquire (obtainable (lock h)); Execute SelectAll; Release])%list).
Proof.
  split; [intros v; rewrite insert_ok; repeat split |].
  split; [intros e; apply insert_raises |].
  split.
  { intros obj.
    destruct (add_factors D obj h) as [(e & o & E) | (v & o & _ & E)].
    - left. exists e, o. exact E.
    - right. exists v, o. exact E. }
  split.
  { intros event_id Hid. rewrite get_by_id_spec by exact Hid.
    split; reflexivity. }
  split; [intros event_id e He; apply get_by_id_raises; exact He |].
  rewrite get_all_spec. repeat split.
Qed.

Lemma store_operations_lock_discipline_witness :
  (lock (snd (get_by_id 1 Sample.contended_handler)) = Free /\
   log (snd (get_by_id 1 Sample.contended_handler))
   = [Acquire false; Execute (SelectById 1); Release]) /\
  get_by_id (2 ^ 64) (@fresh_handler Z)
  = (inl OverflowError, mkHandler empty_connection Held [Acquire true]).
Proof.
  destruct (store_operations_lock_discipline Sample.deps
              Sample.contended_handler) as (_ & _ & _ & Hok & _).
  destruct (store_operations_lock_discipline Sample.deps fresh_handler)
    as (_ & _ & _ & _ & Hraise & _).
  split.
  - apply (Hok 1). reflexivity.
  - apply (Hraise (2 ^ 64) OverflowError). reflexivity.
Defined.

(** C9, as stated, fails: while another thread holds the lock beyond
    the bounded wait, [get_all] does not raise; its SELECT runs on the
    connection after the failed [acquire], it returns normally, and it
    even releases the lock of the other thread. *)
Lemma lock_timeout_is_ignored :
  get_all Sample.contended_handler
  = (ok [], mkHandler empty_connection Free
              [Acquire false; Execute SelectAll; Release]).
Proof. reflexivity. Qed.

(** ** Insertion *)

(** C10. [__add] deletes from the dictionary it is given: for every
    event that has the five column keys, the caller's dictionary has
    none of [type], [active_pos], [passive_pos], [ts], [importance]
    after the call, whether the call returned or raised, and so it is
    not the dictionary that was passed in. *)
Theorem add_mutates_its_argument {coord} (D : Deps coord)
    (obj : ParsedEvent coord) (h : Handler coord) :
  (forall k, In k column_keys -> has_key obj k = true) ->
  (forall k, In k column_keys ->
             has_key (fst (snd (__add D (obj, h)))) k = false) /\
  fst (snd (__add D (obj, h))) <> obj.
Proof.
  intros Hk. rewrite add_leaves_remainder by exact Hk. split.
  - intros k Hin. apply remainder_has_no_column. exact Hin.
  - intros E.
    pose proof (remainder_has_no_column obj "type") as H1.
    rewrite E, Hk in H1 by (simpl; tauto).
    specialize (H1 (or_introl eq_refl)). discriminate.
Qed.

Lemma add_mutates_its_argument_witness :
  (forall k, In k column_keys ->
             has_key (fst (snd (__add Sample.deps
                                  (Sample.combat_parsed, fresh_handler)))) k
             = false) /\
  fst (snd (__add Sample.deps (Sample.combat_parsed, fresh_handler)))
  <> Sample.combat_parsed.
Proof.
  apply (add_mutates_its_argument Sample.deps Sample.combat_parsed fresh_handler).
  intros k H. simpl in H.
  repeat (destruct H as [H | H]; [subst k; reflexivity |]).
  contradiction.
Defined.

(** C7. Along any feed of envelopes into a fresh store, the ids that
    [process_event] returns are 1, 2, 3, ... in the order of the calls,
    hence strictly increasing and never repeated, also when calls in
    between raise; three calls that all return yield 1, 2 and 3; and
    [get_all] afterwards lists the stored events under exactly these
    ids, in ascending order. *)
Theorem ids_are_monotonic {coord} (D : Deps coord) (events : list ToriiEvent) :
  let rs := fst (process_each D events (@fresh_handler coord)) in
  let h' := snd (process_each D events (@fresh_handler coord)) in
  let ids := successes rs in
  ids = ids_upto (List.length ids) /\
  StronglySorted Z.lt ids /\
  NoDup ids /\
  (forall i1 i2 i3, rs = [ok i1; ok i2; ok i3] -> [i1; i2; i3] = [1; 2; 3]) /\
  exists stored,
    fst (get_all h') = ok stored /\
    map se_id stored = ids /\
    StronglySorted Z.lt (map se_id stored).
Proof.
  intros rs h' ids.
  assert (Hfresh : ids_dense (db (@fresh_handler coord)))
    by (split; reflexivity).
  destruct (process_each_dense D events fresh_handler Hfresh)
    as (Hids & [Hdense _] & Hlen).
  fold rs in Hids. fold ids in Hids, Hlen. fold h' in Hdense, Hlen.
  simpl in Hids, Hlen.
  assert (Hsorted : StronglySorted Z.lt ids)
    by (rewrite Hids; apply seq_increasing).
  split; [exact Hids |]. split; [exact Hsorted |].
  split; [apply sorted_lt_nodup; exact Hsorted |]. split.
  - intros i1 i2 i3 Hrs. unfold ids in Hids. rewrite Hrs in Hids.
    exact Hids.
  - exists (map stored_of_row (rows (db h'))).
    rewrite get_all_spec. simpl.
    assert (E : map se_id (map stored_of_row (rows (db h'))) = ids).
    { rewrite map_map. simpl.
      change (map (fun x => row_id x) (rows (db h'))) with (map row_id (rows (db h'))).
      rewrite Hdense, Hlen. exact (eq_sym Hids). }
    split; [reflexivity |]. split; [exact E |]. rewrite E. exact Hsorted.
Qed.

Lemma ids_are_monotonic_witness :
  exists i1 i2 i3,
    fst (process_each Sample.deps
           [Sample.combat_event; Sample.trade_event; Sample.combat_event]
           fresh_handler)
    = [ok i1; ok i2; ok i3] /\
    [i1; i2; i3] = [1; 2; 3].
Proof.
  exists 1, 2, 3. split; [reflexivity |].
  destruct (ids_are_monotonic Sample.deps
              [Sample.combat_event; Sample.trade_event; Sample.combat_event])
    as (_ & _ & _ & H & _).
  apply H. reflexivity.
Defined.

(** ** Scaling of resource amounts *)

(** Rounding to nearest stays within one of the floor. *)
Lemma round_half_even_cases (n d : Z) :
  (round_half_even n d = n / d /\ 2 * (n mod d) <= d) \/
  (round_half_even n d = n / d + 1 /\ d <= 2 * (n mod d)).
Proof.
  unfold round_half_even.
  destruct (2 * (n mod d) <? d) eqn:E1; [left; split; [reflexivity | lia] |].
  destruct (d <? 2 * (n mod d)) eqn:E2; [right; split; [reflexivity | lia] |].
  destruct (Z.even (n / d)); [left | right]; split; try reflexivity; lia.
Qed.

(** With at least nine fraction bits in the significand, rounding the
    scaled quotient never reaches the next integer. *)
Lemma scaled_rounding_keeps_floor (a k : Z) :
  0 <= a -> 9 <= k ->
  round_half_even (a * 2 ^ k) 1000 / 2 ^ k = a / 1000.
Proof.
  intros Ha Hk.
  assert (HP : 512 <= 2 ^ k).
  { change 512 with (2 ^ 9). apply Z.pow_le_mono_r; lia. }
  set (P := 2 ^ k) in *.
  symmetry. apply Z.div_unique_pos with
    (r := round_half_even (a * P) 1000 - P * (a / 1000)); [| lia].
  pose proof (Z.div_mod a 1000 ltac:(lia)) as Ea.
  pose proof (Z.mod_pos_bound a 1000 ltac:(lia)) as Ba.
  pose proof (Z.div_mod (a * P) 1000 ltac:(lia)) as Eq.
  pose proof (Z.mod_pos_bound (a * P) 1000 ltac:(lia)) as Bq.
  set (q := a / 1000) in *. set (r := a mod 1000) in *.
  set (Q := a * P / 1000) in *. set (R := (a * P) mod 1000) in *.
  assert (HQlo : q * P <= Q) by nia.
  assert (HQhi : Q <= (q + 1) * P - 1) by nia.
  destruct (round_half_even_cases (a * P) 1000) as [[-> HR] | [-> HR]];
    fold Q; fold R in HR.
  - nia.
  - assert (Q + 1 <= (q + 1) * P - 1); [| nia].
    destruct (Z.eq_dec Q ((q + 1) * P - 1)) as [EQ | NE]; [| lia].
    exfalso. nia.
Qed.

Lemma quotient_exponent_small (a : Z) :
  0 < a < 1000 * 2 ^ 44 -> quotient_exponent a 1000 <= 43.
Proof.
  intros [Hpos Hlt]. unfold quotient_exponent.
  assert (Hlog : Z.log2 a < 54).
  { apply Z.log2_lt_pow2; [exact Hpos |].
    eapply Z.lt_trans; [exact Hlt | reflexivity]. }
  change (Z.log2 1000) with 9.
  destruct (Z.eq_dec (Z.log2 a - 9) 44) as [E | NE].
  - rewrite E. change (0 <=? 44) with true. cbv iota.
    destruct (1000 * 2 ^ 44 <=? a) eqn:El; [| lia].
    apply Z.leb_le in El. lia.
  - destruct (if 0 <=? Z.log2 a - 9 then _ else _); lia.
Qed.

(** Below [1000 * 2 ^ 44] the float detour is harmless: [int(a / 1000)]
    is the integer quotient. *)
Lemma int_truediv_1000_exact (a : Z) :
  0 <= a < 1000 * 2 ^ 44 -> int_truediv_1000 a = ok (a / 1000).
Proof.
  intros [H0 Hlt]. unfold int_truediv_1000.
  destruct (a =? 0) eqn:E0; [apply Z.eqb_eq in E0; subst a; reflexivity |].
  apply Z.eqb_neq in E0.
  assert (Hpos : 0 < a) by lia.
  destruct (0 <? a) eqn:Ep; [| lia].
  unfold truediv_pos.
  pose proof (quotient_exponent_small a (conj Hpos Hlt)) as He.
  destruct (0 <=? quotient_exponent a 1000 - 52) eqn:Ee; [lia |].
  f_equal. apply scaled_rounding_keeps_floor; lia.
Qed.

(** C5. On the pair (3, 0x3e8000000003e7) the decoder yields the amount
    17592186044417, which is not the integer quotient 17592186044416 of
    the raw amount 17592186044416999 by 1000: [int(raw / 1000)] rounds
    the quotient to a float before truncating.  The raw amount 5000
    does decode to 5. *)
Theorem resource_amount_rounds_through_float :
  @resource_at Z Sample.large_amount_data 1
  = ok (VDict [("type", VInt 3); ("amount", VInt 17592186044417)]) /\
  int_at Sample.large_amount_data 2 = ok 17592186044416999 /\
  17592186044416999 / 1000 = 17592186044416 /\
  @resource_at Z ["0x1"; "0x3"; "0x1388"] 1
  = ok (VDict [("type", VInt 3); ("amount", VInt 5)]).
Proof. vm_compute. repeat split. Qed.

(** ** Reading the stream *)

Lemma getitem_nonneg {A} (l : list A) (i : Z) :
  0 <= i ->
  getitem l i = match nth_error l (Z.to_nat i) with
                | Some a => ok a
                | None => raise IndexError
                end.
Proof.
  intros Hi. unfold getitem.
  destruct (i <? 0) eqn:E; [apply Z.ltb_lt in E; lia |].
  rewrite E. reflexivity.
Qed.

Lemma getitem_past_end {A} (l : list A) (i : Z) :
  len l <= i -> getitem l i = raise IndexError.
Proof.
  intros Hi. unfold len in Hi. rewrite getitem_nonneg by lia.
  destruct (nth_error l (Z.to_nat i)) eqn:E; [| reflexivity].
  assert (Z.to_nat i < List.length l)%nat
    by (apply nth_error_Some; congruence).
  lia.
Qed.

Lemma range_unit (n : Z) : range 1 n 1 = range_from 1 1 (Z.to_nat (n - 1)).
Proof.
  unfold range. rewrite Z.div_1_r. do 2 f_equal. lia.
Qed.

Lemma range_pairs (m : Z) : range 1 (m * 2) 2 = range_from 1 2 (Z.to_nat m).
Proof.
  unfold range. replace (m * 2 - 1 + 2 - 1) with (m * 2) by lia.
  rewrite Z.div_mul by lia. reflexivity.
Qed.

Lemma in_range_from (start step : Z) (n k : nat) :
  (k < n)%nat -> In (start + step * Z.of_nat k) (range_from start step n).
Proof.
  revert start k. induction n as [| n IH]; intros start k Hk; [lia |].
  simpl. destruct k as [| k].
  - left. lia.
  - right. replace (start + step * Z.of_nat (S k))
      with ((start + step) + step * Z.of_nat k) by lia.
    apply IH. lia.
Qed.

Lemma mapM_fails {A B} (f : A -> result B) (l : list A) (a : A) (e : exn) :
  In a l -> f a = inl e -> exists e', mapM f l = inl e'.
Proof.
  induction l as [| x l IH]; intros Hin Hf; [contradiction |].
  simpl. destruct (f x) as [e1 | b] eqn:Ex; [eexists; reflexivity |].
  destruct Hin as [-> | Hin]; [congruence |].
  destruct (IH Hin Hf) as [e' ->]. eexists; reflexivity.
Qed.

Lemma mapM_err {A B} (f : A -> result B) (l : list A) (e : exn) :
  mapM f l = inl e -> exists a, In a l /\ f a = inl e.
Proof.
  induction l as [| x l IH]; simpl; intros H; [discriminate |].
  destruct (f x) as [e1 | b] eqn:Ex.
  - injection H as ->. exists x. split; [left; reflexivity | exact Ex].
  - destruct (mapM f l) as [e2 | bs]; [| discriminate].
    injection H as ->. destruct (IH eq_refl) as (a & Hin & Ha).
    exists a. split; [right; exact Hin | exact Ha].
Qed.

(** Every failure of a read is a decode error. *)

Lemma int_at_err (data : list string) (i : Z) (e : exn) :
  int_at data i = inl e -> is_decode_error e = true.
Proof.
  unfold int_at, getitem, int16. intros H.
  apply rbind_err_inv in H. destruct H as [H | (w & _ & H)].
  - destruct (_ <? 0); [injection H as <-; reflexivity |].
    destruct (nth_error _ _); [discriminate | injection H as <-; reflexivity].
  - destruct (parse_hex w); [discriminate | injection H as <-; reflexivity].
Qed.

Lemma int_truediv_1000_err (a : Z) (e : exn) :
  int_truediv_1000 a = inl e -> e = OverflowError.
Proof.
  assert (P : forall x, truediv_pos x 1000 = inl e -> e = OverflowError).
  { intros x. unfold truediv_pos.
    destruct (0 <=? _); [| discriminate].
    destruct (2 ^ 1024 <=? _); [| discriminate].
    intros H; injection H as <-; reflexivity. }
  unfold int_truediv_1000.
  destruct (a =? 0); [discriminate |].
  destruct (0 <? a); [apply P |].
  intros H. apply rbind_err_inv in H.
  destruct H as [H | (v & _ & H)]; [apply (P _ H) | discriminate].
Qed.

Section Reads.

Context {coord : Type}.

Lemma resource_at_err (data : list string) (i : Z) (e : exn) :
  @resource_at coord data i = inl e -> is_decode_error e = true.
Proof.
  unfold resource_at. intros H.
  apply rbind_err_inv in H.
  destruct H as [H | (t & _ & H)]; [exact (int_at_err _ _ _ H) |].
  apply rbind_err_inv in H.
  destruct H as [H | (raw & _ & H)]; [exact (int_at_err _ _ _ H) |].
  apply rbind_err_inv in H.
  destruct H as [H | (amount & _ & H)]; [| discriminate].
  apply int_truediv_1000_err in H. subst e. reflexivity.
Qed.

Lemma parse_resources_err (data : list string) (e : exn) :
  @__parse_resources coord data = inl e -> is_decode_error e = true.
Proof.
  unfold __parse_resources. intros H.
  apply rbind_err_inv in H.
  destruct H as [H | (n & _ & H)]; [exact (int_at_err _ _ _ H) |].
  apply rbind_err_inv in H.
  destruct H as [H | (rs & _ & H)]; [| discriminate].
  apply mapM_err in H. destruct H as (i & _ & H).
  exact (resource_at_err _ _ _ H).
Qed.

Lemma parse_resources_rest (data rest : list string) (rs : list (pyval coord))
    (n : Z) :
  int_at data 0 = ok n ->
  __parse_resources data = ok (rest, rs) ->
  rest = slice_from data (n * 2 + 1).
Proof.
  unfold __parse_resources. intros Hn H. rewrite Hn in H. simpl in H.
  apply rbind_ok_inv in H. destruct H as (x & _ & H).
  injection H as <- _. reflexivity.
Qed.

(** A resource array that announces more pairs than remain cannot be
    read. *)
Lemma parse_resources_overrun (data : list string) :
  array_overrun 2 data ->
  exists e, @__parse_resources coord data = inl e /\ is_decode_error e = true.
Proof.
  intros (n & Hn & Hlen).
  assert (Hpos : 0 < len data).
  { unfold int_at in Hn. destruct data; [discriminate |].
    unfold len; simpl; lia. }
  assert (Hfail : exists e, @__parse_resources coord data = inl e).
  { unfold __parse_resources. rewrite Hn. simpl. rewrite range_pairs.
    assert (Hin : In (1 + 2 * Z.of_nat (Z.to_nat n - 1))
                    (range_from 1 2 (Z.to_nat n)))
      by (apply in_range_from; lia).
    assert (Hat : exists e, @resource_at coord data
                              (1 + 2 * Z.of_nat (Z.to_nat n - 1)) = inl e).
    { unfold resource_at.
      destruct (int_at data (1 + 2 * Z.of_nat (Z.to_nat n - 1)))
        as [e | t]; [eexists; reflexivity |].
      cbn [rbind]. unfold int_at at 1. rewrite getitem_past_end by lia.
      eexists; reflexivity. }
    destruct Hat as [e He].
    destruct (mapM_fails _ _ _ _ Hin He) as [e' ->].
    eexists; reflexivity. }
  destruct Hfail as [e He]. exists e. split; [exact He |].
  exact (parse_resources_err _ _ He).
Qed.

End Reads.

Lemma parse_attacking_entity_ids_err (data : list string) (e : exn) :
  __parse_attacking_entity_ids data = inl e -> is_decode_error e = true.
Proof.
  unfold __parse_attacking_entity_ids. intros H.
  apply rbind_err_inv in H.
  destruct H as [H | (n & _ & H)]; [exact (int_at_err _ _ _ H) |].
  apply rbind_err_inv in H.
  destruct H as [H | (ids & _ & H)]; [| discriminate].
  apply mapM_err in H. destruct H as (i & _ & H).
  exact (int_at_err _ _ _ H).
Qed.

(** The cursor after the attacking entity ids: past the count word and
    the [n] words it announces. *)
Lemma parse_attacking_entity_ids_rest (data rest : list string)
    (ids : list Z) (n : Z) :
  int_at data 0 = ok n ->
  __parse_attacking_entity_ids data = ok (rest, ids) ->
  rest = slice_from data (1 + n).
Proof.
  unfold __parse_attacking_entity_ids. intros Hn H. rewrite Hn in H. simpl in H.
  apply rbind_ok_inv in H. destruct H as (x & _ & H).
  injection H as <- _. reflexivity.
Qed.

Lemma slice_from_past_end {A} (l : list A) (start : Z) :
  len l <= start -> slice_from l start = [].
Proof.
  intros H. unfold len in H. unfold slice_from.
  destruct (start <? 0) eqn:E; [apply Z.ltb_lt in E; lia |].
  apply skipn_all2. lia.
Qed.

(** ** Streams that end too early *)

Section Overruns.

Context {coord : Type}.
Variable D : Deps coord.

Lemma parse_resources_nil :
  @__parse_resources coord [] = inl IndexError.
Proof. reflexivity. Qed.

(** [__parse_combat_outcome_event] raises a decode error as soon as the
    resources cannot be read from wherever the ids left the cursor. *)
Lemma combat_stream_failure (keys data : list string) :
  (forall rest ids,
      __parse_attacking_entity_ids data = ok (rest, ids) ->
      exists e, @__parse_resources coord rest = inl e) ->
  exists e, __parse_combat_outcome_event D keys data = inl e /\
            is_decode_error e = true.
Proof.
  intros H. unfold __parse_combat_outcome_event.
  destruct (int_at keys 1) as [e | a] eqn:E1;
    [exists e; split; [reflexivity | exact (int_at_err _ _ _ E1)] |].
  destruct (int_at keys 2) as [e | t] eqn:E2;
    [exists e; split; [reflexivity | exact (int_at_err _ _ _ E2)] |].
  destruct (__parse_attacking_entity_ids data) as [e | [rest ids]] eqn:E3.
  - exists e. split; [reflexivity |].
    exact (parse_attacking_entity_ids_err _ _ E3).
  - destruct (H rest ids eq_refl) as [e E4].
    exists e. simpl. rewrite E4. split; [reflexivity |].
    exact (parse_resources_err _ _ E4).
Qed.

Lemma combat_overrun_fails (keys data : list string) :
  combat_overrun data ->
  exists e, __parse_combat_outcome_event D keys data = inl e /\
            is_decode_error e = true.
Proof.
  intros [(n & Hn & Hlen) | (n & Hn & Hn0 & Hover)];
    apply combat_stream_failure; intros rest ids Hp;
    rewrite (parse_attacking_entity_ids_rest _ _ _ _ Hn Hp).
  - rewrite slice_from_past_end by lia.
    exists IndexError. apply parse_resources_nil.
  - destruct (parse_resources_overrun (coord := coord) _ Hover) as (e & He & _).
    exists e. exact He.
Qed.

Lemma trade_overrun_fails (keys data : list string) :
  trade_overrun data ->
  exists e, __parse_trade_event D keys data = inl e /\
            is_decode_error e = true.
Proof.
  intros Hover. unfold __parse_trade_event.
  destruct (int_at keys 1) as [e | a] eqn:E1;
    [exists e; split; [reflexivity | exact (int_at_err _ _ _ E1)] |].
  destruct (int_at data 0) as [e | mk] eqn:E2;
    [exists e; split; [reflexivity | exact (int_at_err _ _ _ E2)] |].
  destruct (int_at data 1) as [e | tk] eqn:E3;
    [exists e; split; [reflexivity | exact (int_at_err _ _ _ E3)] |].
  cbn [rbind].
  destruct (@__parse_resources coord (slice_from data 2))
    as [e | [rest rs]] eqn:E4.
  - exists e. split; [reflexivity | exact (parse_resources_err _ _ E4)].
  - cbn [rbind].
    assert (Hrest : array_overrun 2 rest).
    { destruct Hover as [Hfirst | (m & Hm & _ & Hsecond)].
      - destruct (parse_resources_overrun (coord := coord) _ Hfirst)
          as (e & He & _). congruence.
      - rewrite (parse_resources_rest _ _ _ _ Hm E4).
        replace (m * 2 + 1) with (2 * m + 1) by lia. exact Hsecond. }
    destruct (parse_resources_overrun (coord := coord) _ Hrest) as (e & He & Hc).
    exists e. rewrite He. split; [reflexivity | exact Hc].
Qed.

Lemma overrun_has_data (k0 : string) (data : list string) :
  stream_overrun D k0 data -> data <> [].
Proof.
  unfold stream_overrun, combat_overrun, trade_overrun, array_overrun.
  intros H ->.
  destruct (String.eqb k0 _);
    destruct H as [(n & Hn & _) | (n & Hn & _)]; discriminate.
Qed.

End Overruns.

(** C4, as the code has it.  When a count word of the stream announces
    more words than remain after it, decoding raises: the exception is
    the one of the failing read ([IndexError] for the index past the end, or the
    [ValueError] or [OverflowError] of an earlier word), and
    [process_event] passes it on with the handler exactly as it was:
    no row, no statement, no lock taken. *)
Theorem overrun_stream_is_rejected {coord} (D : Deps coord)
    (e : EventEmitted) (k0 : string) (keys data : list string)
    (h : Handler coord) :
  ee_keys e = Some (k0 :: keys) ->
  ee_data e = Some data ->
  stream_overrun D k0 data ->
  exists err,
    decode D (k0 :: keys) data = inl err /\
    is_decode_error err = true /\
    process_event D (Some e) h = (inl err, h).
Proof.
  intros Hk Hd Hover.
  pose proof (overrun_has_data D k0 data Hover) as Hne.
  assert (Hdec : exists err, decode D (k0 :: keys) data = inl err /\
                             is_decode_error err = true).
  { unfold decode, __get_event_type, getitem; simpl.
    unfold stream_overrun in Hover.
    destruct (String.eqb k0 (EventKeyHash_COMBAT_OUTCOME D)).
    - apply combat_overrun_fails. exact Hover.
    - apply trade_overrun_fails. exact Hover. }
  destruct Hdec as (err & Hdec & Hc).
  exists err. split; [exact Hdec |]. split; [exact Hc |].
  unfold process_event, dict_truthy. rewrite Hk, Hd.
  destruct data as [| d ds]; [congruence |].
  simpl. unfold mbind, lift. rewrite Hdec. reflexivity.
Qed.

Lemma overrun_stream_is_rejected_witness :
  exists err,
    decode Sample.deps [Sample.combat_hash; "0x1"; "0x2"] Sample.truncated_data
    = inl err /\
    is_decode_error err = true /\
    process_event Sample.deps Sample.truncated_event fresh_handler
    = (inl err, fresh_handler).
Proof.
  apply (overrun_stream_is_rejected Sample.deps
           (mkEventEmitted (Some [Sample.combat_hash; "0x1"; "0x2"])
              (Some Sample.truncated_data) true)
           Sample.combat_hash ["0x1"; "0x2"] Sample.truncated_data
           fresh_handler).
  - reflexivity.
  - reflexivity.
  - left. exists 5. split; [reflexivity |]. vm_compute. reflexivity.
Defined.

(** C4 as worded does not hold: an overrun raises no exception of its
    own.  Of two CombatOutcome streams that both announce five
    attackers and carry one more word, one raises [IndexError] and the
    other [ValueError], so that no single exception stands for the
    overrun; and [IndexError] is also what [get_by_id] raises for an id
    that is not in the table, which is no failure of decoding. *)
Lemma overrun_raises_no_error_of_its_own :
  stream_overrun Sample.deps Sample.combat_hash Sample.truncated_data /\
  decode Sample.deps [Sample.combat_hash; "0x1"; "0x2"] Sample.truncated_data
  = inl IndexError /\
  stream_overrun Sample.deps Sample.combat_hash Cases.misspelt_data /\
  decode Sample.deps [Sample.combat_hash; "0x1"; "0x2"] Cases.misspelt_data
  = inl ValueError /\
  fst (get_by_id 7 (@fresh_handler Z)) = inl IndexError /\
  ~ (exists err,
        forall k0 keys data,
          stream_overrun Sample.deps k0 data ->
          decode Sample.deps (k0 :: keys) data = inl err).
Proof.
  assert (H1 : stream_overrun Sample.deps Sample.combat_hash
                 Sample.truncated_data).
  { left. exists 5. split; [reflexivity |]. vm_compute. reflexivity. }
  assert (H2 : stream_overrun Sample.deps Sample.combat_hash
                 Cases.misspelt_data).
  { left. exists 5. split; [reflexivity |]. vm_compute. reflexivity. }
  split; [exact H1 |]. split; [reflexivity |].
  split; [exact H2 |]. split; [reflexivity |].
  split; [reflexivity |].
  intros [err Herr].
  pose proof (Herr Sample.combat_hash ["0x1"; "0x2"] _ H1) as E1.
  pose proof (Herr Sample.combat_hash ["0x1"; "0x2"] _ H2) as E2.
  vm_compute in E1, E2. congruence.
Qed.

(** ** The attacking entity ids *)

Lemma mapM_int_at_window (k : nat) :
  forall pre ws rest : list string,
    (k <= List.length ws)%nat ->
    mapM (int_at (pre ++ ws ++ rest)) (range_from (len pre) 1 k)
    = mapM int16 (firstn k ws).
Proof.
  induction k as [| k IH]; intros pre ws rest Hk; [reflexivity |].
  destruct ws as [| w ws]; [simpl in Hk; lia |].
  assert (Hw : int_at (pre ++ (w :: ws) ++ rest) (len pre) = int16 w).
  { unfold int_at, len. rewrite getitem_nonneg by lia.
    rewrite Nat2Z.id, nth_error_app2 by lia.
    rewrite Nat.sub_diag. reflexivity. }
  cbn [range_from firstn mapM]. rewrite Hw.
  replace (len pre + 1) with (len (pre ++ [w]))
    by (unfold len; rewrite length_app; simpl; lia).
  replace (pre ++ (w :: ws) ++ rest)%list with ((pre ++ [w]) ++ ws ++ rest)%list
    by (rewrite <- app_assoc; reflexivity).
  rewrite IH by (simpl in Hk; lia). reflexivity.
Qed.

Lemma mapM_removelast {A B} (f : A -> result B) (l : list A) :
  forall bs, mapM f l = ok bs -> mapM f (removelast l) = ok (removelast bs).
Proof.
  induction l as [| a l IH]; intros bs H.
  - injection H as <-. reflexivity.
  - simpl in H. destruct (f a) as [e | b] eqn:Ea; [discriminate |].
    destruct (mapM f l) as [e | bs'] eqn:El; [discriminate |].
    injection H as <-.
    destruct l as [| a' l'].
    + injection El as <-. reflexivity.
    + specialize (IH bs' eq_refl).
      assert (Hbs : exists b' bs'', bs' = b' :: bs'').
      { simpl in El. destruct (f a'); [discriminate |].
        destruct (mapM f l'); [discriminate |].
        injection El as <-. eauto. }
      destruct Hbs as (b' & bs'' & ->).
      change (removelast (a :: a' :: l')) with (a :: removelast (a' :: l')).
      change (removelast (b :: b' :: bs'')) with (b :: removelast (b' :: bs'')).
      cbn [mapM]. rewrite Ea, IH. reflexivity.
Qed.

(** On a well-formed stream the decoder leaves the cursor right after
    the announced ids, but the list it returns misses the last of
    them: [range(1, length)] stops one short. *)
Lemma parse_attacking_entity_ids_all_but_last
    (cw : string) (ws rest : list string) (vs : list Z) :
  int16 cw = ok (len ws) ->
  mapM int16 ws = ok vs ->
  __parse_attacking_entity_ids (cw :: ws ++ rest) = ok (rest, removelast vs).
Proof.
  intros Hc Hv. unfold __parse_attacking_entity_ids.
  assert (H0 : int_at (cw :: ws ++ rest) 0 = ok (len ws))
    by (unfold int_at; simpl; exact Hc).
  rewrite H0. cbn [rbind ok]. rewrite range_unit.
  change (cw :: ws ++ rest)%list with ([cw] ++ ws ++ rest)%list.
  change 1 with (len [cw]) at 1.
  rewrite mapM_int_at_window by (unfold len; lia).
  replace (Z.to_nat (len ws - 1)) with (pred (List.length ws))
    by (unfold len; lia).
  rewrite <- removelast_firstn_len, (mapM_removelast _ _ _ Hv).
  cbn [rbind ok]. do 2 f_equal.
  unfold slice_from, len.
  destruct (1 + Z.of_nat (List.length ws) <? 0) eqn:E;
    [apply Z.ltb_lt in E; lia |].
  replace (Z.to_nat (1 + Z.of_nat (List.length ws))) with (S (List.length ws))
    by lia.
  simpl. rewrite skipn_app, skipn_all, Nat.sub_diag. reflexivity.
Qed.

(** C2. On a stream that announces two attackers, 0xa and 0xb, the
    decoder consumes the count word and both id words (the resources,
    winner, damage and timestamp are then read at their offsets), but
    the list of attacking entity ids it returns is [[10]], not
    [[10, 11]]. *)
Theorem attacking_entity_ids_lose_last :
  int_at Sample.combat_data 0 = ok 2 /\
  mapM int16 (firstn 2 (skipn 1 Sample.combat_data)) = ok [10; 11] /\
  __parse_attacking_entity_ids Sample.combat_data
  = ok (skipn 3 Sample.combat_data, [10]) /\
  __parse_combat_outcome_event Sample.deps [Sample.combat_hash; "0x1"; "0x2"]
    Sample.combat_data
  = ok Sample.combat_parsed.
Proof. vm_compute. repeat split. Qed.

(** ** Round trip through the store *)

Section RoundTrip.

Context {coord : Type}.
Variable D : Deps coord.

Lemma sql_int_ok_inv (z z' : Z) : sql_int z = ok z' -> z' = z.
Proof.
  unfold sql_int. destruct (_ && _); [| discriminate].
  intros H; injection H as <-; reflexivity.
Qed.

Lemma no_row_under_next_id (c : Connection coord) :
  ids_dense c ->
  filter (fun r => row_id r =? sqlite_sequence c + 1) (rows c) = [].
Proof.
  intros [Hids Hseq].
  assert (Hall : forall r, In r (rows c) -> row_id r <= sqlite_sequence c).
  { intros r Hr. apply (in_map row_id) in Hr. rewrite Hids in Hr.
    apply in_map_iff in Hr. destruct Hr as (y & <- & Hy).
    apply in_seq in Hy. rewrite Hseq. unfold len. lia. }
  clear Hids Hseq. revert Hall. generalize (rows c) as l.
  induction l as [| r l IH]; intros Hall; [reflexivity |].
  simpl. destruct (row_id r =? sqlite_sequence c + 1) eqn:E.
  - apply Z.eqb_eq in E. specialize (Hall r (or_introl eq_refl)). lia.
  - apply IH. intros r' Hr'. apply Hall. right. exact Hr'.
Qed.

(** What the round trip does deliver for a CombatOutcome envelope: the
    stored positions are the registry's for [keys[1]] and [keys[2]],
    the importance is 4, and the metadata is the JSON text of exactly
    the four variant fields, with the ids as the decoder returned
    them. *)
Lemma combat_roundtrip (e : EventEmitted) (keys data : list string)
    (h h1 : Handler coord) (id : Z) :
  ids_dense (db h) ->
  ee_keys e = Some (EventKeyHash_COMBAT_OUTCOME D :: keys) ->
  ee_data e = Some data ->
  process_event D (Some e) h = (ok id, h1) ->
  sql_int id = ok id ->
  exists attacker target a p rest ids rs w d ts,
    int_at (EventKeyHash_COMBAT_OUTCOME D :: keys) 1 = ok attacker /\
    int_at (EventKeyHash_COMBAT_OUTCOME D :: keys) 2 = ok target /\
    position_by_id D attacker = ok a /\
    position_by_id D target = ok p /\
    __parse_attacking_entity_ids data = ok (rest, ids) /\
    fst (get_by_id id h1)
    = ok (mkStoredEvent id (SqLiteEventType_COMBAT_OUTCOME D) 4 ts
            (json_dumps (repr_coord D)
               (VDict [("attacking_entity_ids", VList (map VInt ids));
                       ("stolen_resources", VList rs);
                       ("winner", VInt w); ("damage", VInt d)]))
            a p).
Proof.
  intros Hdense Hk Hdata Hp Hid.
  unfold process_event, dict_truthy in Hp. rewrite Hk, Hdata in Hp.
  destruct data as [| d0 ds]; [discriminate |].
  cbn [negb] in Hp. unfold mbind, lift in Hp.
  unfold decode, __get_event_type, getitem in Hp. simpl in Hp.
  rewrite String.eqb_refl in Hp.
  destruct (__parse_combat_outcome_event D _ (d0 :: ds)) as [err | ev] eqn:E;
    [discriminate |].
  unfold __parse_combat_outcome_event in E.
  apply rbind_ok_inv in E. destruct E as (attacker & Ea & E).
  apply rbind_ok_inv in E. destruct E as (target & Et & E).
  apply rbind_ok_inv in E. destruct E as ([rest ids] & Ei & E).
  apply rbind_ok_inv in E. destruct E as ([rest' rs] & _ & E).
  apply rbind_ok_inv in E. destruct E as (w & _ & E).
  apply rbind_ok_inv in E. destruct E as (d & _ & E).
  apply rbind_ok_inv in E. destruct E as (ts & _ & E).
  apply rbind_ok_inv in E. destruct E as (a & Hpa & E).
  apply rbind_ok_inv in E. destruct E as (p & Hpp & E).
  injection E as <-.
  exists attacker, target, a, p, rest, ids, rs, w, d, ts.
  repeat (split; [assumption |]).
  match type of Hp with
  | context [__add D ?x] => remember (__add D x) as res eqn:Eadd
  end.
  symmetry in Eadd. destruct res as [[err | id'] [obj' h']];
    cbv beta iota in Hp; [discriminate Hp |].
  apply (add_returns_typed D _ h (SqLiteEventType_COMBAT_OUTCOME D) a p ts)
    in Eadd; try reflexivity.
  destruct Eadd as [Eid ->]. injection Hp as <- <-. subst id'.
  rewrite get_by_id_spec by exact Hid. cbn [fst db rows].
  rewrite filter_app, (no_row_under_next_id _ Hdense). simpl.
  rewrite Z.eqb_refl. reflexivity.
Qed.

End RoundTrip.

(** C1. After [process_event] on a CombatOutcome envelope with the
    attackers 10 and 11, [get_by_id] of the returned id yields the
    registry positions of [keys[1]] and [keys[2]] and a metadata text
    without the column fields, but the text holds
    [attacking_entity_ids = [10]]: the second attacker of the envelope
    cannot be reconstructed from the stored event. *)
Theorem roundtrip_loses_last_attacker :
  fst (mbind (process_event Sample.deps Sample.combat_event) get_by_id
         fresh_handler)
  = ok (mkStoredEvent 1 1 4 1700000000
          (json_dumps repr_int
             (VDict [("attacking_entity_ids", VList [VInt 10]);
                     ("stolen_resources",
                      VList [VDict [("type", VInt 3); ("amount", VInt 5)]]);
                     ("winner", VInt 1); ("damage", VInt 100)]))
          (10, 20) (30, 40)) /\
  Sample.realms 1 = ok (10, 20) /\
  Sample.realms 2 = ok (30, 40) /\
  mapM int16 (firstn 2 (skipn 1 Sample.combat_data)) = ok [10; 11].
Proof. vm_compute. repeat split. Qed.

(** * Further properties of the handler *)

(** ** What [__add] stores *)

Section MoreStoreFacts.

Context {coord : Type}.
Variable D : Deps coord.
Implicit Types (h : Handler coord) (obj : ParsedEvent coord).

Lemma filter_twice {A} (f g : A -> bool) (l : list A) :
  filter g (filter f l) = filter (fun x => f x && g x) l.
Proof.
  induction l as [| a l IH]; simpl; [reflexivity |].
  destruct (f a); simpl; [destruct (g a) |]; rewrite IH; reflexivity.
Qed.

(** The five deletions amount to one pass that keeps, in order, the
    entries that are no column. *)
Lemma remainder_is_non_columns obj : remainder obj = non_columns obj.
Proof.
  unfold remainder, non_columns, column_keys, dict_remove. simpl.
  rewrite !filter_twice. apply filter_ext. intros [k v]. simpl.
  unfold is_column, column_keys. simpl.
  destruct (String.eqb k "type"), (String.eqb k "active_pos"),
    (String.eqb k "passive_pos"), (String.eqb k "ts"),
    (String.eqb k "importance"); reflexivity.
Qed.

(** X1. On an event that holds an integer type and timestamp fitting
    64 bits, two positions whose coordinates the driver accepts, an
    importance, and other entries that [json.dumps] can print, [__add]
    returns the next id and writes one row: the type, the constant 4,
    the timestamp, the positions, and as metadata the JSON text of
    exactly the entries that are no column, in their order; the
    caller's dictionary is left with those entries. *)
Theorem add_stores_the_other_entries obj h t a p s :
  dict_get obj "type" = Some (VInt t) ->
  dict_get obj "active_pos" = Some (VPos a) ->
  dict_get obj "passive_pos" = Some (VPos p) ->
  dict_get obj "ts" = Some (VInt s) ->
  has_key obj "importance" = true ->
  printable (VDict (non_columns obj)) = true ->
  sql_int t = ok t ->
  sql_int s = ok s ->
  bind_coord D (fst a) = ok tt ->
  bind_coord D (snd a) = ok tt ->
  bind_coord D (fst p) = ok tt ->
  bind_coord D (snd p) = ok tt ->
  fst (__add D (obj, h)) = ok (sqlite_sequence (db h) + 1) /\
  fst (snd (__add D (obj, h))) = non_columns obj /\
  rows (db (snd (snd (__add D (obj, h)))))
  = (rows (db h) ++
     [mkRow (sqlite_sequence (db h) + 1) t 4 s
        (json_dumps (repr_coord D) (VDict (non_columns obj))) a p])%list.
Proof.
  intros H1 H2 H3 H4 H5 Hp Ht Hs Hb1 Hb2 Hb3 Hb4.
  rewrite <- remainder_is_non_columns in Hp |- *.
  rewrite (add_ok D obj h t a p s H1 H2 H3 H4 H5 Hp Ht Hs Hb1 Hb2 Hb3 Hb4).
  repeat split.
Qed.

(** X2. Insert then look up: on a store whose ids are dense, the
    event that [__add] accepted is what [get_by_id] returns under the
    id that [__add] returned. *)
Theorem add_then_get_by_id obj h t a p s :
  ids_dense (db h) ->
  dict_get obj "type" = Some (VInt t) ->
  dict_get obj "active_pos" = Some (VPos a) ->
  dict_get obj "passive_pos" = Some (VPos p) ->
  dict_get obj "ts" = Some (VInt s) ->
  has_key obj "importance" = true ->
  printable (VDict (non_columns obj)) = true ->
  sql_int t = ok t ->
  sql_int s = ok s ->
  bind_coord D (fst a) = ok tt ->
  bind_coord D (snd a) = ok tt ->
  bind_coord D (fst p) = ok tt ->
  bind_coord D (snd p) = ok tt ->
  sql_int (sqlite_sequence (db h) + 1) = ok (sqlite_sequence (db h) + 1) ->
  fst (get_by_id (sqlite_sequence (db h) + 1) (snd (snd (__add D (obj, h)))))
  = ok (mkStoredEvent (sqlite_sequence (db h) + 1) t 4 s
          (json_dumps (repr_coord D) (VDict (non_columns obj))) a p).
Proof.
  intros Hdense H1 H2 H3 H4 H5 Hp Ht Hs Hb1 Hb2 Hb3 Hb4 Hid.
  rewrite <- remainder_is_non_columns in Hp |- *.
  rewrite (add_ok D obj h t a p s H1 H2 H3 H4 H5 Hp Ht Hs Hb1 Hb2 Hb3 Hb4).
  cbn [fst snd]. rewrite get_by_id_spec by exact Hid. cbn [fst db rows].
  rewrite filter_app, (no_row_under_next_id _ Hdense). simpl.
  rewrite Z.eqb_refl. reflexivity.
Qed.


Lemma dense_ids_nodup (c : Connection coord) :
  ids_dense c -> NoDup (map row_id (rows c)).
Proof.
  intros [Hids _]. rewrite Hids. apply sorted_lt_nodup.
  unfold ids_upto. apply seq_increasing.
Qed.

Lemma filter_unique_id (l : list (Row coord)) (r : Row coord) :
  NoDup (map row_id l) -> In r l ->
  filter (fun x => row_id x =? row_id r) l = [r].
Proof.
  induction l as [| x l IH]; intros Hnd Hin; [contradiction |].
  simpl in Hnd. inversion Hnd as [| ? ? Hnotin Hnd']; subst.
  simpl. destruct Hin as [-> | Hin].
  - rewrite Z.eqb_refl. f_equal.
    clear IH Hnd Hnd'. induction l as [| y l IH]; [reflexivity |].
    simpl. destruct (row_id y =? row_id r) eqn:E.
    + apply Z.eqb_eq in E. exfalso. apply Hnotin. left. exact E.
    + apply IH. intros H. apply Hnotin. right. exact H.
  - destruct (row_id x =? row_id r) eqn:E.
    + apply Z.eqb_eq in E. exfalso. apply Hnotin. rewrite E.
      apply in_map. exact Hin.
    + apply IH; assumption.
Qed.

(** X4. The two readers agree and write nothing: on a store whose ids
    are dense, [get_all] leaves the table as it was, and every stored
    event it lists is what [get_by_id] returns for its id. *)
Theorem get_all_agrees_with_get_by_id h (ev : StoredEvent coord) :
  ids_dense (db h) ->
  (exists stored, fst (get_all h) = ok stored /\ In ev stored) ->
  sql_int (se_id ev) = ok (se_id ev) ->
  db (snd (get_all h)) = db h /\
  fst (get_by_id (se_id ev) (snd (get_all h))) = ok ev /\
  db (snd (get_by_id (se_id ev) (snd (get_all h)))) = db h.
Proof.
  intros Hdense (stored & Hall & Hin) Hid.
  rewrite get_all_spec in Hall |- *. cbn [fst snd] in Hall |- *.
  injection Hall as <-. apply in_map_iff in Hin.
  destruct Hin as (r & <- & Hr).
  rewrite get_by_id_spec by exact Hid. cbn [fst snd db].
  change (se_id (stored_of_row r)) with (row_id r).
  rewrite (filter_unique_id _ r (dense_ids_nodup _ Hdense) Hr).
  repeat split.
Qed.

(** X5. A timestamp that does not fit SQLite's 64-bit integer, on an
    otherwise well-typed event whose other entries print, makes the
    INSERT raise [OverflowError] between [__lock] and [__release]: no
    row is written, nothing is committed, and the lock that was free
    stays held, so that the next operation does not obtain it (and runs
    all the same).  When the other entries do not print, [json.dumps]
    raises before that and the handler is untouched. *)
Theorem unbound_timestamp_keeps_the_lock obj h t a p s :
  dict_get obj "type" = Some (VInt t) ->
  dict_get obj "active_pos" = Some (VPos a) ->
  dict_get obj "passive_pos" = Some (VPos p) ->
  dict_get obj "ts" = Some (VInt s) ->
  has_key obj "importance" = true ->
  sql_int t = ok t ->
  s < - 2 ^ 63 \/ 2 ^ 63 <= s ->
  lock h = Free ->
  if printable (VDict (non_columns obj))
  then
    fst (__add D (obj, h)) = raise OverflowError /\
    snd (snd (__add D (obj, h)))
    = mkHandler (db h) Held (log h ++ [Acquire true]) /\
    log (snd (get_all (snd (snd (__add D (obj, h))))))
    = (log h ++ [Acquire true; Acquire false; Execute SelectAll; Release])%list
  else
    __add D (obj, h) = (raise ValueError, (non_columns obj, h)).
Proof.
  intros H1 H2 H3 H4 H5 Ht Hs Hfree.
  assert (Es : sql_int s = raise OverflowError).
  { unfold sql_int.
    destruct ((- 2 ^ 63 <=? s) && (s <? 2 ^ 63)) eqn:E; [| reflexivity].
    apply andb_true_iff in E. destruct E as [E1 E2].
    apply Z.leb_le in E1. apply Z.ltb_lt in E2. lia. }
  assert (Eb : forall text,
             bind_values D (VInt t) (VInt s) text a p = inl OverflowError).
  { intros text. unfold bind_values, sql_int_param. rewrite Ht, Es.
    reflexivity. }
  assert (Ei : forall e : exn,
             __insert (inl e) h
             = (@inl exn Z e, mkHandler (db h) Held (log h ++ [Acquire true]))).
  { intros e. destruct h as [c l g]. simpl in Hfree. subst l. reflexivity. }
  pose proof (add_typed D obj h t a p s H1 H2 H3 H4 H5) as Eadd.
  rewrite remainder_is_non_columns in Eadd. unfold json_dumps_call in Eadd.
  destruct (printable (VDict (non_columns obj))).
  - unfold ok in Eadd at 1. cbv beta iota in Eadd.
    rewrite Eb, Ei in Eadd. cbn [fst snd] in Eadd. rewrite Eadd.
    cbn [fst snd]. split; [reflexivity |]. split; [reflexivity |].
    rewrite get_all_spec. cbn [snd log lock obtainable].
    rewrite <- app_assoc. reflexivity.
  - exact Eadd.
Qed.

End MoreStoreFacts.

(** ** Decoding well-formed streams *)

Lemma int_at_after (pre tl : list string) (w : string) :
  int_at (pre ++ w :: tl) (len pre) = int16 w.
Proof.
  unfold int_at, len. rewrite getitem_nonneg by lia.
  rewrite Nat2Z.id, nth_error_app2 by lia.
  rewrite Nat.sub_diag. reflexivity.
Qed.

Lemma mapM_length {A B} (f : A -> result B) (l : list A) :
  forall bs, mapM f l = ok bs -> List.length bs = List.length l.
Proof.
  induction l as [| a l IH]; intros bs H.
  - injection H as <-. reflexivity.
  - simpl in H. destruct (f a); [discriminate |].
    destruct (mapM f l) as [| bs']; [discriminate |].
    injection H as <-. simpl. f_equal. apply IH. reflexivity.
Qed.

Lemma mapM_cons_inv {A B} (f : A -> result B) (l : list A) (b : B)
    (bs : list B) :
  mapM f l = ok (b :: bs) ->
  exists a l', l = a :: l' /\ f a = ok b /\ mapM f l' = ok bs.
Proof.
  destruct l as [| a l']; simpl; intros H; [discriminate |].
  destruct (f a) as [| b'] eqn:Ea; [discriminate |].
  destruct (mapM f l') as [| bs'] eqn:El; [discriminate |].
  injection H as -> ->. exists a, l'. repeat split; assumption.
Qed.

Lemma flat_pairs_length (vals : list (Z * Z)) :
  List.length (flat_pairs vals) = (2 * List.length vals)%nat.
Proof.
  induction vals as [| v vals IH]; simpl; [reflexivity |]. rewrite IH. lia.
Qed.

Section WellFormed.

Context {coord : Type}.
Variable D : Deps coord.

Lemma mapM_resource_window (rest : list string) (vals : list (Z * Z)) :
  forall pre words : list string,
    mapM int16 words = ok (flat_pairs vals) ->
    Forall exact_amount vals ->
    mapM (@resource_at coord (pre ++ words ++ rest))
      (range_from (len pre) 2 (List.length vals))
    = ok (map resource_dict vals).
Proof.
  induction vals as [| [t raw] vals IH]; intros pre words Hw Hex;
    [reflexivity |].
  cbn [flat_pairs flat_map fst snd app] in Hw.
  apply mapM_cons_inv in Hw. destruct Hw as (w1 & l1 & -> & Hw1 & Hw).
  apply mapM_cons_inv in Hw. destruct Hw as (w2 & l2 & -> & Hw2 & Hw).
  inversion Hex as [| ? ? Hraw Hex']; subst.
  assert (H1 : int_at (pre ++ (w1 :: w2 :: l2) ++ rest) (len pre) = ok t).
  { cbn [app]. rewrite int_at_after. exact Hw1. }
  assert (H2 : int_at (pre ++ (w1 :: w2 :: l2) ++ rest) (len pre + 1) = ok raw).
  { replace (pre ++ (w1 :: w2 :: l2) ++ rest)%list
      with ((pre ++ [w1]) ++ w2 :: l2 ++ rest)%list
      by (rewrite <- app_assoc; reflexivity).
    replace (len pre + 1) with (len (pre ++ [w1]))
      by (unfold len; rewrite length_app; simpl; lia).
    rewrite int_at_after. exact Hw2. }
  cbn [List.length range_from mapM map].
  unfold resource_at at 1. rewrite H1, H2. cbn [rbind ok].
  unfold exact_amount in Hraw. cbn [snd] in Hraw.
  rewrite (int_truediv_1000_exact raw Hraw). cbn [rbind ok].
  replace (pre ++ (w1 :: w2 :: l2) ++ rest)%list
    with ((pre ++ [w1; w2]) ++ l2 ++ rest)%list
    by (rewrite <- app_assoc; reflexivity).
  replace (len pre + 2) with (len (pre ++ [w1; w2]))
    by (unfold len; rewrite length_app; simpl; lia).
  rewrite (IH _ _ Hw Hex'). reflexivity.
Qed.

(** The count word, the pairs it announces, then the rest. *)
Lemma parse_resources_reads_array (cw : string) (words rest : list string)
    (vals : list (Z * Z)) :
  int16 cw = ok (len vals) ->
  mapM int16 words = ok (flat_pairs vals) ->
  Forall exact_amount vals ->
  @__parse_resources coord (cw :: words ++ rest)
  = ok (rest, map resource_dict vals).
Proof.
  intros Hc Hw Hex. unfold __parse_resources.
  assert (H0 : int_at (cw :: words ++ rest) 0 = ok (len vals))
    by (unfold int_at; simpl; exact Hc).
  rewrite H0. cbn [rbind ok]. rewrite range_pairs.
  change (cw :: words ++ rest)%list with ([cw] ++ words ++ rest)%list.
  replace (Z.to_nat (len vals)) with (List.length vals) by (unfold len; lia).
  change 1 with (len [cw]) at 1.
  rewrite (mapM_resource_window rest vals [cw] words Hw Hex).
  cbn [rbind ok]. do 2 f_equal.
  pose proof (mapM_length _ _ _ Hw) as Hlen.
  rewrite flat_pairs_length in Hlen.
  unfold slice_from, len.
  destruct (Z.of_nat (List.length vals) * 2 + 1 <? 0) eqn:E;
    [apply Z.ltb_lt in E; lia |].
  replace (Z.to_nat (Z.of_nat (List.length vals) * 2 + 1))
    with (S (List.length words)) by lia.
  simpl. rewrite skipn_app, skipn_all, Nat.sub_diag. reflexivity.
Qed.

(** X6. On a resource array that is all there (a count word, then
    that many pairs of hexadecimal words, then whatever follows),
    [__parse_resources] returns one dictionary per pair, in order, and
    leaves the cursor on the first word after the last pair.  For raw
    amounts below [1000 * 2 ^ 44] the amount is the integer quotient
    by 1000. *)
Theorem parse_resources_well_formed (cw : string) (words rest : list string)
    (vals : list (Z * Z)) :
  int16 cw = ok (len vals) ->
  mapM int16 words = ok (flat_pairs vals) ->
  Forall exact_amount vals ->
  @__parse_resources coord (cw :: words ++ rest)
  = ok (rest, map resource_dict vals).
Proof. exact (parse_resources_reads_array cw words rest vals). Qed.

(** The trade decoder on a stream that is all there. *)
Lemma trade_stream_decodes
    (k0 k1 mk tk cw1 cw2 tw : string) (keys ws1 ws2 extra : list string)
    (trade_id maker taker ts : Z) (vals1 vals2 : list (Z * Z))
    (a p : RealmPosition coord) :
  int16 k1 = ok trade_id ->
  int16 mk = ok maker ->
  int16 tk = ok taker ->
  int16 cw1 = ok (len vals1) ->
  mapM int16 ws1 = ok (flat_pairs vals1) ->
  Forall exact_amount vals1 ->
  int16 cw2 = ok (len vals2) ->
  mapM int16 ws2 = ok (flat_pairs vals2) ->
  Forall exact_amount vals2 ->
  int16 tw = ok ts ->
  position_by_id D maker = ok a ->
  position_by_id D taker = ok p ->
  __parse_trade_event D (k0 :: k1 :: keys)
    (mk :: tk :: cw1 :: ws1 ++ cw2 :: ws2 ++ tw :: extra)
  = ok [("type", VInt (SqLiteEventType_ORDER_ACCEPTED D));
        ("active_pos", VPos a);
        ("passive_pos", VPos p);
        ("resources_maker", VList (map resource_dict vals1));
        ("resources_taker", VList (map resource_dict vals2));
        ("importance", VInt 0);
        ("ts", VInt ts)].
Proof.
  intros Hk Hm Ht Hc1 Hw1 He1 Hc2 Hw2 He2 Hts Ha Hp.
  unfold __parse_trade_event.
  assert (E1 : int_at (k0 :: k1 :: keys) 1 = ok trade_id)
    by (unfold int_at; simpl; exact Hk).
  assert (E2 : forall l, int_at (mk :: tk :: l) 0 = ok maker)
    by (intros l; unfold int_at; simpl; exact Hm).
  assert (E3 : forall l, int_at (mk :: tk :: l) 1 = ok taker)
    by (intros l; unfold int_at; simpl; exact Ht).
  rewrite E1, E2, E3. cbn [rbind ok].
  change (slice_from (mk :: tk :: cw1 :: ws1 ++ cw2 :: ws2 ++ tw :: extra) 2)
    with (cw1 :: ws1 ++ cw2 :: ws2 ++ tw :: extra).
  rewrite (parse_resources_reads_array cw1 ws1 _ vals1 Hc1 Hw1 He1).
  cbn [rbind ok].
  rewrite (parse_resources_reads_array cw2 ws2 _ vals2 Hc2 Hw2 He2).
  cbn [rbind ok].
  assert (E4 : int_at (tw :: extra) 0 = ok ts)
    by (unfold int_at; simpl; exact Hts).
  rewrite E4, Ha, Hp. reflexivity.
Qed.

(** The combat decoder on a stream that is all there. *)
Lemma combat_stream_decodes
    (k0 k1 k2 cwi cwr ww dw tw : string) (keys idws rws extra : list string)
    (attacker target winner damage ts : Z) (ids : list Z)
    (vals : list (Z * Z)) (a p : RealmPosition coord) :
  int16 k1 = ok attacker ->
  int16 k2 = ok target ->
  int16 cwi = ok (len idws) ->
  mapM int16 idws = ok ids ->
  int16 cwr = ok (len vals) ->
  mapM int16 rws = ok (flat_pairs vals) ->
  Forall exact_amount vals ->
  int16 ww = ok winner ->
  int16 dw = ok damage ->
  int16 tw = ok ts ->
  position_by_id D attacker = ok a ->
  position_by_id D target = ok p ->
  __parse_combat_outcome_event D (k0 :: k1 :: k2 :: keys)
    (cwi :: idws ++ cwr :: rws ++ ww :: dw :: tw :: extra)
  = ok [("type", VInt (SqLiteEventType_COMBAT_OUTCOME D));
        ("active_pos", VPos a);
        ("passive_pos", VPos p);
        ("attacking_entity_ids", VList (map VInt (removelast ids)));
        ("stolen_resources", VList (map resource_dict vals));
        ("winner", VInt winner);
        ("damage", VInt damage);
        ("importance", VInt 0);
        ("ts", VInt ts)].
Proof.
  intros Hk1 Hk2 Hci Hids Hcr Hrw Hex Hw Hd Ht Ha Hp.
  unfold __parse_combat_outcome_event.
  assert (E1 : int_at (k0 :: k1 :: k2 :: keys) 1 = ok attacker)
    by (unfold int_at; simpl; exact Hk1).
  assert (E2 : int_at (k0 :: k1 :: k2 :: keys) 2 = ok target)
    by (unfold int_at; simpl; exact Hk2).
  rewrite E1, E2. cbn [rbind ok].
  rewrite (parse_attacking_entity_ids_all_but_last cwi idws _ ids Hci Hids).
  cbn [rbind ok].
  rewrite (parse_resources_reads_array cwr rws _ vals Hcr Hrw Hex).
  cbn [rbind ok].
  assert (E3 : int_at (ww :: dw :: tw :: extra) 0 = ok winner)
    by (unfold int_at; simpl; exact Hw).
  assert (E4 : int_at (ww :: dw :: tw :: extra) 1 = ok damage)
    by (unfold int_at; simpl; exact Hd).
  assert (E5 : int_at (ww :: dw :: tw :: extra) 2 = ok ts)
    by (unfold int_at; simpl; exact Ht).
  rewrite E3, E4, E5, Ha, Hp. reflexivity.
Qed.



End WellFormed.

(** ** Envelopes that do not decode *)

Section Rejections.

Context {coord : Type}.
Implicit Types (D : Deps coord) (h : Handler coord).

(** An exception of the decoder comes out of [process_event] as it is,
    before the lock or the connection is touched. *)
Lemma decode_failure_leaves_handler D (e : EventEmitted)
    (keys data : list string) (err : exn) h :
  ee_keys e = Some keys ->
  ee_data e = Some data ->
  keys <> [] ->
  data <> [] ->
  decode D keys data = inl err ->
  process_event D (Some e) h = (inl err, h).
Proof.
  intros Hk Hd Hkn Hdn Hdec.
  unfold process_event, dict_truthy. rewrite Hk, Hd.
  destruct keys as [| k ks]; [congruence |].
  destruct data as [| d ds]; [congruence |].
  cbn [negb]. unfold mbind, lift. rewrite Hdec. reflexivity.
Qed.

(** X9. An envelope whose [keys] hold the discriminant only is
    rejected with [IndexError], whatever the discriminant and the data:
    both decoders start by reading [keys[1]] (the trade decoder drops
    the value it reads).  The handler is untouched. *)
Theorem discriminant_alone_is_rejected D (e : EventEmitted) (k0 : string)
    (data : list string) h :
  ee_keys e = Some [k0] ->
  ee_data e = Some data ->
  data <> [] ->
  process_event D (Some e) h = (raise IndexError, h).
Proof.
  intros Hk Hd Hdn.
  apply decode_failure_leaves_handler with (keys := [k0]) (data := data);
    try assumption; [discriminate |].
  unfold decode, __get_event_type. cbn [getitem]. simpl.
  destruct (String.eqb k0 (EventKeyHash_COMBAT_OUTCOME D)); reflexivity.
Qed.

(** X10. Unknown realm, CombatOutcome.  When the words of an envelope
    are in order (they decode under some registry) but the registry in
    use raises for the attacker of [keys[1]], or knows the attacker and
    raises for the target of [keys[2]], [process_event] raises that
    exception and leaves the handler untouched: no row, no statement,
    no lock. *)
Theorem combat_with_unknown_realm_is_rejected D D' (e : EventEmitted)
    (keys data : list string) (ev : ParsedEvent coord)
    (attacker target : Z) (err : exn) h :
  ee_keys e = Some keys ->
  ee_data e = Some data ->
  data <> [] ->
  getitem keys 0 = ok (EventKeyHash_COMBAT_OUTCOME D') ->
  __parse_combat_outcome_event D keys data = ok ev ->
  int_at keys 1 = ok attacker ->
  int_at keys 2 = ok target ->
  position_by_id D' attacker = inl err \/
  (exists a, position_by_id D' attacker = ok a /\
             position_by_id D' target = inl err) ->
  process_event D' (Some e) h = (inl err, h).
Proof.
  intros Hk Hd Hdn Hk0 Hev Ha Ht Hreg.
  apply decode_failure_leaves_handler with (keys := keys) (data := data);
    try assumption.
  { intros ->. discriminate. }
  unfold decode, __get_event_type. rewrite Hk0. cbn [rbind ok].
  rewrite String.eqb_refl.
  unfold __parse_combat_outcome_event in Hev |- *.
  rewrite Ha, Ht in Hev |- *. cbn [rbind ok] in Hev |- *.
  destruct (__parse_attacking_entity_ids data) as [| [rest ids]];
    [discriminate |]. cbn [rbind] in Hev |- *.
  destruct (__parse_resources rest) as [| [rest2 rs]]; [discriminate |].
  cbn [rbind] in Hev |- *.
  destruct (int_at rest2 0); [discriminate |]. cbn [rbind] in Hev |- *.
  destruct (int_at rest2 1); [discriminate |]. cbn [rbind] in Hev |- *.
  destruct (int_at rest2 2); [discriminate |]. cbn [rbind] in Hev |- *.
  destruct Hreg as [Hr | (a & Hr1 & Hr2)].
  - rewrite Hr. reflexivity.
  - rewrite Hr1. cbn [rbind ok]. rewrite Hr2. reflexivity.
Qed.

(** X11. Unknown realm, TradeAccepted: the same for the maker of
    [data[0]] and the taker of [data[1]], under any discriminant that
    is not the CombatOutcome hash. *)
Theorem trade_with_unknown_realm_is_rejected D D' (e : EventEmitted)
    (k0 : string) (keys data : list string) (ev : ParsedEvent coord)
    (maker taker : Z) (err : exn) h :
  ee_keys e = Some (k0 :: keys) ->
  ee_data e = Some data ->
  data <> [] ->
  k0 <> EventKeyHash_COMBAT_OUTCOME D' ->
  __parse_trade_event D (k0 :: keys) data = ok ev ->
  int_at data 0 = ok maker ->
  int_at data 1 = ok taker ->
  position_by_id D' maker = inl err \/
  (exists a, position_by_id D' maker = ok a /\
             position_by_id D' taker = inl err) ->
  process_event D' (Some e) h = (inl err, h).
Proof.
  intros Hk Hd Hdn Hk0 Hev Hm Ht Hreg.
  apply decode_failure_leaves_handler with (keys := k0 :: keys) (data := data);
    try assumption; [discriminate |].
  unfold decode, __get_event_type. cbn [getitem]. simpl.
  apply String.eqb_neq in Hk0. rewrite Hk0.
  unfold __parse_trade_event in Hev |- *.
  destruct (int_at (k0 :: keys) 1); [discriminate |].
  cbn [rbind] in Hev |- *.
  rewrite Hm, Ht in Hev |- *. cbn [rbind ok] in Hev |- *.
  destruct (__parse_resources (slice_from data 2)) as [| [rest rm]];
    [discriminate |]. cbn [rbind] in Hev |- *.
  destruct (__parse_resources rest) as [| [rest2 rt]]; [discriminate |].
  cbn [rbind] in Hev |- *.
  destruct (int_at rest2 0); [discriminate |]. cbn [rbind] in Hev |- *.
  destruct Hreg as [Hr | (a & Hr1 & Hr2)].
  - rewrite Hr. reflexivity.
  - rewrite Hr1. cbn [rbind ok]. rewrite Hr2. reflexivity.
Qed.

End Rejections.

(** ** From the envelope to the stored event *)

Section Composition.

Context {coord : Type}.
Variable D : Deps coord.
Implicit Types (h : Handler coord).

(** Whatever [decode] returns has the five column entries, well
    typed. *)
Lemma decoded_event_is_typed (keys data : list string)
    (ev : ParsedEvent coord) :
  decode D keys data = ok ev ->
  exists t a p s,
    dict_get ev "type" = Some (VInt t) /\
    dict_get ev "active_pos" = Some (VPos a) /\
    dict_get ev "passive_pos" = Some (VPos p) /\
    dict_get ev "ts" = Some (VInt s) /\
    has_key ev "importance" = true.
Proof.
  unfold decode. intros H.
  apply rbind_ok_inv in H. destruct H as (k0 & _ & H).
  destruct (String.eqb k0 (EventKeyHash_COMBAT_OUTCOME D)).
  - unfold __parse_combat_outcome_event in H. rbind_inv H.
    injection H as <-. eexists _, _, _, _. repeat split.
  - unfold __parse_trade_event in H. rbind_inv H.
    injection H as <-. eexists _, _, _, _. repeat split.
Qed.

(** X12. Decode, insert, look up.  When [process_event] returns an id
    on a store whose ids are dense, [get_by_id] of that id returns the
    decoded event: its type, timestamp and positions in the columns,
    the importance 4, and as metadata the JSON text of the decoded
    entries that are no column.  This holds for both variants. *)
Theorem process_event_then_get_by_id (e : EventEmitted)
    (keys data : list string) (ev : ParsedEvent coord) h h1 (id : Z) :
  ids_dense (db h) ->
  ee_keys e = Some keys ->
  ee_data e = Some data ->
  decode D keys data = ok ev ->
  process_event D (Some e) h = (ok id, h1) ->
  sql_int id = ok id ->
  exists t a p s,
    dict_get ev "type" = Some (VInt t) /\
    dict_get ev "active_pos" = Some (VPos a) /\
    dict_get ev "passive_pos" = Some (VPos p) /\
    dict_get ev "ts" = Some (VInt s) /\
    fst (get_by_id id h1)
    = ok (mkStoredEvent id t 4 s
            (json_dumps (repr_coord D) (VDict (non_columns ev))) a p).
Proof.
  intros Hdense Hk Hd Hdec Hp Hid.
  destruct (decoded_event_is_typed keys data ev Hdec)
    as (t & a & p & s & H1 & H2 & H3 & H4 & H5).
  exists t, a, p, s. repeat (split; [assumption |]).
  unfold process_event, dict_truthy in Hp. rewrite Hk, Hd in Hp.
  destruct keys as [| k ks]; [discriminate |].
  destruct data as [| d0 ds]; [discriminate |].
  cbn [negb] in Hp. unfold mbind, lift in Hp. rewrite Hdec in Hp.
  unfold ok in Hp at 1. cbv beta iota in Hp.
  remember (__add D (ev, h)) as res eqn:Eadd. symmetry in Eadd.
  destruct res as [[err | id'] [obj' h']]; cbv beta iota in Hp;
    [discriminate Hp |].
  apply (add_returns_typed D ev h t a p s) in Eadd; try assumption.
  destruct Eadd as [Eid ->]. injection Hp as <- <-. subst id'.
  rewrite get_by_id_spec by exact Hid. cbn [fst db rows].
  rewrite filter_app, (no_row_under_next_id _ Hdense). simpl.
  rewrite Z.eqb_refl, remainder_is_non_columns. reflexivity.
Qed.

(** X13. Ids continue where the table stands.  On a store with [n]
    rows under the ids 1 to [n], the calls of a feed that return get
    the ids [n + 1], [n + 2], ... in order, the calls that raise take
    none, and afterwards the ids are dense again. *)
Theorem ids_continue_after_existing_rows (events : list ToriiEvent) h :
  ids_dense (db h) ->
  successes (fst (process_each D events h))
  = map Z.of_nat
      (seq (S (List.length (rows (db h))))
         (List.length (successes (fst (process_each D events h))))) /\
  ids_dense (db (snd (process_each D events h))) /\
  List.length (rows (db (snd (process_each D events h))))
  = (List.length (rows (db h))
     + List.length (successes (fst (process_each D events h))))%nat.
Proof.
  intros Hdense. exact (process_each_dense D events h Hdense).
Qed.

End Composition.

(** ** Dispatch on the discriminant *)

Section Dispatch.

Context {coord : Type}.
Variable D : Deps coord.
Implicit Types (h : Handler coord).

(** The trade decoder does not look at [keys[0]]. *)
Lemma parse_trade_event_ignores_discriminant (k0 k0' : string)
    (keys data : list string) :
  __parse_trade_event D (k0 :: keys) data
  = __parse_trade_event D (k0' :: keys) data.
Proof. reflexivity. Qed.

(** Under any discriminant but the CombatOutcome hash, [process_event]
    is the trade decoder followed by [__add]. *)
Lemma process_event_of_non_combat (e : EventEmitted) (k0 : string)
    (keys data : list string) h :
  ee_keys e = Some (k0 :: keys) ->
  ee_data e = Some data ->
  data <> [] ->
  k0 <> EventKeyHash_COMBAT_OUTCOME D ->
  process_event D (Some e) h
  = match __parse_trade_event D (k0 :: keys) data with
    | inl err => (inl err, h)
    | inr ev => (fst (__add D (ev, h)), snd (snd (__add D (ev, h))))
    end.
Proof.
  intros Hk Hd Hne Hk0.
  unfold process_event, dict_truthy. rewrite Hk, Hd.
  destruct data as [| d ds]; [congruence |].
  cbn [negb]. unfold mbind, lift, decode, __get_event_type, getitem.
  simpl. apply String.eqb_neq in Hk0. rewrite Hk0.
  destruct (__parse_trade_event D (k0 :: keys) (d :: ds)) as [err | ev];
    [reflexivity |].
  destruct (__add D (ev, h)) as [r [o h']]. reflexivity.
Qed.

End Dispatch.

(** C3, as the code has it.  [process_event] tests [keys[0]] against
    the CombatOutcome hash only.  An envelope whose [keys[0]] is any
    other value, the TradeAccepted hash or neither of the two, is
    handled in one and the same way: result and handler are those of
    the same envelope under any other such discriminant.  When the
    trade decoding raises, [process_event] raises that exception and
    the handler is untouched; when it returns an event whose other
    entries print and whose values bind, the event is inserted under
    the next id as a row of type ORDER_ACCEPTED. *)
Theorem unknown_discriminant_is_handled_as_trade {coord} (D : Deps coord)
    (e e' : EventEmitted) (k0 k0' : string) (keys data : list string)
    (h : Handler coord) :
  ee_keys e = Some (k0 :: keys) ->
  ee_data e = Some data ->
  ee_keys e' = Some (k0' :: keys) ->
  ee_data e' = Some data ->
  data <> [] ->
  k0 <> EventKeyHash_COMBAT_OUTCOME D ->
  k0' <> EventKeyHash_COMBAT_OUTCOME D ->
  process_event D (Some e) h = process_event D (Some e') h /\
  (forall err,
      __parse_trade_event D (k0 :: keys) data = inl err ->
      process_event D (Some e) h = (inl err, h)) /\
  (forall ev a p s,
      __parse_trade_event D (k0 :: keys) data = ok ev ->
      dict_get ev "active_pos" = Some (VPos a) ->
      dict_get ev "passive_pos" = Some (VPos p) ->
      dict_get ev "ts" = Some (VInt s) ->
      printable (VDict (non_columns ev)) = true ->
      sql_int (SqLiteEventType_ORDER_ACCEPTED D)
      = ok (SqLiteEventType_ORDER_ACCEPTED D) ->
      sql_int s = ok s ->
      bind_coord D (fst a) = ok tt ->
      bind_coord D (snd a) = ok tt ->
      bind_coord D (fst p) = ok tt ->
      bind_coord D (snd p) = ok tt ->
      fst (process_event D (Some e) h) = ok (sqlite_sequence (db h) + 1) /\
      rows (db (snd (process_event D (Some e) h)))
      = (rows (db h) ++
         [mkRow (sqlite_sequence (db h) + 1)
            (SqLiteEventType_ORDER_ACCEPTED D) 4 s
            (json_dumps (repr_coord D) (VDict (non_columns ev))) a p])%list).
Proof.
  intros Hk Hd Hk' Hd' Hne Hk0 Hk0'.
  rewrite (process_event_of_non_combat D e k0 keys data h Hk Hd Hne Hk0).
  rewrite (process_event_of_non_combat D e' k0' keys data h Hk' Hd' Hne Hk0').
  rewrite (parse_trade_event_ignores_discriminant D k0 k0').
  split; [reflexivity |]. split.
  - intros err ->. reflexivity.
  - intros ev a p s Hev Ha Hp Hs Hprint Hti Hsi Hb1 Hb2 Hb3 Hb4.
    rewrite Hev. unfold ok. cbv beta iota.
    assert (Hty : dict_get ev "type"
                  = Some (VInt (SqLiteEventType_ORDER_ACCEPTED D)) /\
                  has_key ev "importance" = true).
    { unfold __parse_trade_event in Hev. rbind_inv Hev.
      injection Hev as <-. split; reflexivity. }
    destruct Hty as [Hty Himp].
    rewrite <- remainder_is_non_columns in Hprint |- *.
    rewrite (add_ok D ev h _ a p s Hty Ha Hp Hs Himp Hprint Hti Hsi
               Hb1 Hb2 Hb3 Hb4).
    split; reflexivity.
Qed.

Lemma unknown_discriminant_is_handled_as_trade_witness :
  process_event Sample.deps Sample.unknown_event fresh_handler
  = process_event Sample.deps Sample.trade_event fresh_handler /\
  fst (process_event Sample.deps Sample.unknown_event fresh_handler)
  = ok (0 + 1) /\
  rows (db (snd (process_event Sample.deps Sample.unknown_event fresh_handler)))
  = ([] ++
     [mkRow (0 + 1) 2 4 1700000000
        (json_dumps repr_int (VDict (non_columns Cases.trade_parsed)))
        (10, 20) (30, 40)])%list.
Proof.
  destruct (unknown_discriminant_is_handled_as_trade Sample.deps
              (mkEventEmitted (Some ["0xdead"; "0x7"]) (Some Sample.trade_data)
                 true)
              (mkEventEmitted (Some [Sample.order_hash; "0x7"])
                 (Some Sample.trade_data) true)
              "0xdead" Sample.order_hash ["0x7"] Sample.trade_data
              fresh_handler)
    as (Hsame & _ & Hins); try reflexivity; try discriminate.
  split; [exact Hsame |].
  apply (Hins Cases.trade_parsed (10, 20) (30, 40) 1700000000); reflexivity.
Defined.

(** ** Importance *)

(** C6. Both decoders put [importance = 0] into the event they build:
    whenever one returns, and on every stream that is all there with
    realms that the registry knows, where one does return.  Whenever
    [__add] returns, for whatever event it was given, the row it wrote
    has importance 4: the decoded value is read, deleted and never
    used.  On a decoded event whose type and timestamp fit 64 bits,
    whose coordinates the driver accepts and whose other entries
    print, [__add] does return, and the row has importance 4. *)
Theorem importance_decoded_0_stored_4 {coord} (D : Deps coord) :
  (forall keys data ev,
      __parse_combat_outcome_event D keys data = ok ev \/
      __parse_trade_event D keys data = ok ev ->
      dict_get ev "importance" = Some (VInt 0)) /\
  (forall k0 k1 k2 keys data ids vals winner damage ts attacker target a p,
      combat_stream data ids vals winner damage ts ->
      int16 k1 = ok attacker ->
      int16 k2 = ok target ->
      position_by_id D attacker = ok a ->
      position_by_id D target = ok p ->
      exists ev,
        __parse_combat_outcome_event D (k0 :: k1 :: k2 :: keys) data = ok ev /\
        dict_get ev "importance" = Some (VInt 0)) /\
  (forall k0 k1 keys data maker taker vals1 vals2 ts trade_id a p,
      trade_stream data maker taker vals1 vals2 ts ->
      int16 k1 = ok trade_id ->
      position_by_id D maker = ok a ->
      position_by_id D taker = ok p ->
      exists ev,
        __parse_trade_event D (k0 :: k1 :: keys) data = ok ev /\
        dict_get ev "importance" = Some (VInt 0)) /\
  (forall obj (h : Handler coord) id obj' h',
      __add D (obj, h) = (ok id, (obj', h')) ->
      exists r, rows (db h') = (rows (db h) ++ [r])%list /\
                row_id r = id /\ row_importance r = 4) /\
  (forall keys data ev (h : Handler coord) t s a p,
      __parse_combat_outcome_event D keys data = ok ev \/
      __parse_trade_event D keys data = ok ev ->
      dict_get ev "type" = Some (VInt t) ->
      dict_get ev "ts" = Some (VInt s) ->
      dict_get ev "active_pos" = Some (VPos a) ->
      dict_get ev "passive_pos" = Some (VPos p) ->
      sql_int t = ok t ->
      sql_int s = ok s ->
      bind_coord D (fst a) = ok tt ->
      bind_coord D (snd a) = ok tt ->
      bind_coord D (fst p) = ok tt ->
      bind_coord D (snd p) = ok tt ->
      printable (VDict (non_columns ev)) = true ->
      exists obj' h' r,
        __add D (ev, h) = (ok (sqlite_sequence (db h) + 1), (obj', h')) /\
        rows (db h') = (rows (db h) ++ [r])%list /\
        row_importance r = 4).
Proof.
  split; [| split; [| split; [| split]]].
  - intros keys data ev [E | E].
    + unfold __parse_combat_outcome_event in E. rbind_inv E.
      injection E as <-. reflexivity.
    + unfold __parse_trade_event in E. rbind_inv E.
      injection E as <-. reflexivity.
  - intros k0 k1 k2 keys data ids vals winner damage ts attacker target a p
      (cwi & idws & cwr & rws & ww & dw & tw & extra & -> & Hci & Hids & Hcr
       & Hrw & Hex & Hw & Hd & Ht) Hk1 Hk2 Ha Hp.
    eexists. split.
    + exact (combat_stream_decodes D k0 k1 k2 cwi cwr ww dw tw keys idws rws
               extra attacker target winner damage ts ids vals a p
               Hk1 Hk2 Hci Hids Hcr Hrw Hex Hw Hd Ht Ha Hp).
    + reflexivity.
  - intros k0 k1 keys data maker taker vals1 vals2 ts trade_id a p
      (mk & tk & cw1 & ws1 & cw2 & ws2 & tw & extra & -> & Hm & Htk & Hc1
       & Hw1 & He1 & Hc2 & Hw2 & He2 & Hts) Hk1 Ha Hp.
    eexists. split.
    + exact (trade_stream_decodes D k0 k1 mk tk cw1 cw2 tw keys ws1 ws2 extra
               trade_id maker taker ts vals1 vals2 a p
               Hk1 Hm Htk Hc1 Hw1 He1 Hc2 Hw2 He2 Hts Ha Hp).
    + reflexivity.
  - intros obj h id obj' h' E.
    apply add_returns_inv in E. destruct E as (_ & _ & r & Hr).
    exists r. exact Hr.
  - intros keys data ev h t s a p Hdec Ht Hs Ha Hp Hti Hsi Hb1 Hb2 Hb3 Hb4
      Hprint.
    assert (Himp : has_key ev "importance" = true).
    { destruct Hdec as [E | E].
      - unfold __parse_combat_outcome_event in E. rbind_inv E.
        injection E as <-. reflexivity.
      - unfold __parse_trade_event in E. rbind_inv E.
        injection E as <-. reflexivity. }
    rewrite <- remainder_is_non_columns in Hprint.
    rewrite (add_ok D ev h t a p s Ht Ha Hp Hs Himp Hprint Hti Hsi
               Hb1 Hb2 Hb3 Hb4).
    eexists _, _, _. split; [reflexivity |]. split; reflexivity.
Qed.

Lemma importance_decoded_0_stored_4_witness :
  (exists ev,
      __parse_combat_outcome_event Sample.deps
        [Sample.combat_hash; "0x1"; "0x2"] Sample.combat_data = ok ev /\
      dict_get ev "importance" = Some (VInt 0)) /\
  (exists obj' h' r,
      __add Sample.deps (Sample.combat_parsed, fresh_handler)
      = (ok (0 + 1), (obj', h')) /\
      rows (db h') = ([] ++ [r])%list /\
      row_importance r = 4).
Proof.
  destruct (importance_decoded_0_stored_4 Sample.deps)
    as (_ & Hcombat & _ & _ & Hadd).
  split.
  - apply (Hcombat Sample.combat_hash "0x1" "0x2" [] Sample.combat_data
             [10; 11] [(3, 5000)] 1 100 1700000000 1 2 (10, 20) (30, 40));
      try reflexivity.
    exists "0x2", ["0xa"; "0xb"], "0x1", ["0x3"; "0x1388"], "0x1", "0x64",
      "0x6553f100", [].
    repeat split; try reflexivity.
    repeat constructor; unfold exact_amount; simpl; lia.
  - apply (Hadd [Sample.combat_hash; "0x1"; "0x2"] Sample.combat_data
             Sample.combat_parsed fresh_handler 1 1700000000 (10, 20) (30, 40));
      try reflexivity.
    left. reflexivity.
Defined.

(** ** The table only grows *)

Section AppendOnly.

Context {coord : Type}.
Variable D : Deps coord.
Implicit Types (h : Handler coord).

Lemma get_by_id_keeps_table (event_id : Z) h :
  db (snd (get_by_id event_id h)) = db h.
Proof.
  destruct h as [c l g].
  unfold get_by_id, __lock, __release, mbind, acquire, release, record,
    execute_select, mret, lift.
  destruct l as [| | []]; simpl; destruct (sql_int event_id); simpl;
    try reflexivity; destruct (filter _ (rows c)); reflexivity.
Qed.

(** X17. No operation of the handler changes or removes a row.  A
    feed of envelopes leaves every row that was there in place and
    appends one row per call that returned, each with importance 4;
    [get_by_id], for any id at all, and [get_all] leave the table as
    it is. *)
Theorem table_is_append_only :
  (forall (events : list ToriiEvent) h,
      exists added,
        rows (db (snd (process_each D events h)))
        = (rows (db h) ++ added)%list /\
        List.length added
        = List.length (successes (fst (process_each D events h))) /\
        Forall (fun r => row_importance r = 4) added) /\
  (forall (event_id : Z) h, db (snd (get_by_id event_id h)) = db h) /\
  (forall h, db (snd (get_all h)) = db h).
Proof.
  split; [| split].
  - induction events as [| event events IH]; intros h.
    + exists []. simpl. rewrite app_nil_r. repeat split. constructor.
    + simpl. pose proof (process_event_outcome D event h) as Ho.
      destruct (process_event D event h) as [r h1].
      specialize (IH h1). destruct (process_each D events h1) as [rs h2].
      simpl in IH |- *. destruct IH as (added & Hrows & Hlen & Himp).
      destruct r as [e | id].
      * exists added. rewrite Hrows, Ho. repeat split; assumption.
      * destruct Ho as (_ & _ & r & Hr & _ & Hr4).
        exists (r :: added). rewrite Hrows, Hr, <- app_assoc. simpl.
        repeat split; [f_equal; exact Hlen | constructor; assumption].
  - intros event_id h. apply get_by_id_keeps_table.
  - intros h. rewrite get_all_spec. reflexivity.
Qed.

End AppendOnly.

(** ** Start-up *)

(** X14. [instance] is a singleton: a second call returns the object
    of the first, allocates nothing and prints nothing; only a call
    that finds [_instance] empty prints and allocates. *)
Theorem instance_is_a_singleton (c : ClassState) :
  instance (snd (instance c)) = (fst (instance c), snd (instance c)) /\
  _instance (snd (instance c)) = Some (fst (instance c)) /\
  (_instance c = None ->
   stdout (snd (instance c)) = (stdout c ++ ["Creating db interface"])%list) /\
  (_instance c <> None -> snd (instance c) = c).
Proof.
  unfold instance. destruct (_instance c) as [o |] eqn:E; simpl.
  - rewrite E. repeat split; congruence.
  - repeat split; congruence.
Qed.

Section StartupFacts.

Variable FS : Type.
Variable path_exists : FS -> string -> bool.
Variable perform : StartupAction -> FS -> result unit * FS.
Variable path : string.

Ltac run_steps :=
  repeat match goal with
         | |- context [perform ?a ?fs] =>
             let E := fresh "E" in
             destruct (perform a fs) as [[? | []] ?] eqn:E;
             cbn [fst snd mret ok]
         end.

Ltac run_steps_keeping Hkeep :=
  repeat match goal with
         | H : path_exists ?fs path = true |- context [perform ?a ?fs] =>
             let E := fresh "E" in
             let K := fresh "K" in
             pose proof (Hkeep a fs H) as K;
             destruct (perform a fs) as [[? | []] ?] eqn:E;
             cbn [fst snd mret ok] in K |- *
         end.

Lemma init_on_existing_file (tr : list StartupAction) (fs : FS) :
  path_exists fs path = true ->
  filter is_schema_action (fst (snd (init FS path_exists perform path (tr, fs))))
  = filter is_schema_action tr.
Proof.
  intros Hex.
  unfold init, __load_sqlean, step, mbind. cbn [fst snd].
  rewrite Hex. cbn [negb].
  run_steps;
    rewrite ?filter_app; cbn [filter is_schema_action];
    rewrite ?app_nil_r; reflexivity.
Qed.

Lemma init_leaves_the_file (tr : list StartupAction) (fs : FS) :
  (forall fs0 fs1, perform (Connect path) fs0 = (ok tt, fs1) ->
                   path_exists fs1 path = true) ->
  (forall a fs0, path_exists fs0 path = true ->
                 path_exists (snd (perform a fs0)) path = true) ->
  fst (perform (Connect path) fs) = ok tt ->
  path_exists (snd (snd (init FS path_exists perform path (tr, fs)))) path = true.
Proof.
  intros Hconn Hkeep Hok.
  unfold init, __load_sqlean, __init_db, __use_initial_queries,
    step, mbind.
  cbn [fst snd].
  destruct (perform (Connect path) fs) as [[e | []] fs1] eqn:E0;
    [discriminate Hok |].
  pose proof (Hconn fs fs1 E0) as H1. cbn [fst snd].
  destruct (negb (path_exists fs path));
    run_steps_keeping Hkeep; assumption.
Qed.

Lemma first_init_that_returns (tr : list StartupAction) (fs : FS) :
  path_exists fs path = false ->
  fst (init FS path_exists perform path (tr, fs)) = ok tt ->
  fst (snd (init FS path_exists perform path (tr, fs)))
  = (tr ++ [Connect path; EnableLoadExtension; LoadSpatialite;
            InitSpatialMetaData; CreateTableEvents;
            AddGeometryColumn "active_pos"; AddGeometryColumn "passive_pos";
            InitRealms])%list.
Proof.
  intros Hex.
  unfold init, __load_sqlean, __init_db, __use_initial_queries,
    step, mbind.
  cbn [fst snd]. rewrite Hex. cbn [negb].
  run_steps; intros Hret; try discriminate Hret.
  rewrite <- !app_assoc. reflexivity.
Qed.

End StartupFacts.

(** X15. The schema is tied to the first launch, and to nothing else.
    Every step of [init] may raise.  On a path that exists before the
    call, [init] starts no schema statement, whatever its steps do.
    When connecting creates the file and no step removes it, the file
    exists after every [init] whose connect step went through, also
    one that raised at a later step: so every later [init] on that
    path starts no schema statement, and a first launch that raised
    after connecting leaves a database whose schema is never created.
    A first launch that returns has run the three steps that open the
    database, then the four schema statements in order, then the
    registry's. *)
Theorem schema_only_on_first_launch (FS : Type)
    (path_exists : FS -> string -> bool)
    (perform : StartupAction -> FS -> result unit * FS) (path : string) :
  (forall fs fs', perform (Connect path) fs = (ok tt, fs') ->
                  path_exists fs' path = true) ->
  (forall a fs, path_exists fs path = true ->
                path_exists (snd (perform a fs)) path = true) ->
  (forall tr fs,
      path_exists fs path = true ->
      filter is_schema_action
        (fst (snd (init FS path_exists perform path (tr, fs))))
      = filter is_schema_action tr) /\
  (forall tr fs,
      fst (perform (Connect path) fs) = ok tt ->
      path_exists (snd (snd (init FS path_exists perform path (tr, fs)))) path
      = true) /\
  (forall tr fs tr',
      fst (perform (Connect path) fs) = ok tt ->
      filter is_schema_action
        (fst (snd (init FS path_exists perform path
                     (tr', snd (snd (init FS path_exists perform path
                                       (tr, fs)))))))
      = filter is_schema_action tr') /\
  (forall tr fs,
      path_exists fs path = false ->
      fst (init FS path_exists perform path (tr, fs)) = ok tt ->
      fst (snd (init FS path_exists perform path (tr, fs)))
      = (tr ++ [Connect path; EnableLoadExtension; LoadSpatialite;
                InitSpatialMetaData; CreateTableEvents;
                AddGeometryColumn "active_pos";
                AddGeometryColumn "passive_pos"; InitRealms])%list).
Proof.
  intros Hconn Hkeep. split; [| split; [| split]].
  - intros tr fs. apply init_on_existing_file.
  - intros tr fs. apply init_leaves_the_file; assumption.
  - intros tr fs tr' Hok. apply init_on_existing_file.
    apply init_leaves_the_file; assumption.
  - intros tr fs. apply first_init_that_returns.
Qed.

(** ** Configuration *)

(** X16. The two checks of [load] cannot fire.  Each address is passed
    through [str] before it is tested for [None], so both tests are
    always false and [load] returns a configuration: an address that
    is missing from the environment becomes the four letters [None].
    A missing API key becomes the placeholder text; the dotenv file is
    chosen by [--prod]; and every call adds one more handler to the
    logger. *)
Theorem load_checks_cannot_fire (load_dotenv : string -> config.Environ -> config.Environ)
    (args : config.Args) (lg : config.Logger) (environ : config.Environ) :
  let environ' :=
    load_dotenv (if config.args_prod args then ".env.production"
                 else ".env.development") environ in
  exists cfg,
    config.load load_dotenv args lg environ
    = (ok cfg, config.setup_logging (config.args_logging_file args) lg,
       environ') /\
    config.TORII_WS cfg = config.PyStr (config.str (environ' "TORII_WS")) /\
    config.TORII_GRAPHQL cfg
    = config.PyStr (config.str (environ' "TORII_GRAPHQL")) /\
    (environ' "TORII_WS" = config.PyNone ->
     config.TORII_WS cfg = config.PyStr "None") /\
    (environ' "TORII_GRAPHQL" = config.PyNone ->
     config.TORII_GRAPHQL cfg = config.PyStr "None") /\
    (environ' "OPENAI_API_KEY" = config.PyNone ->
     config.OPENAI_API_KEY cfg = config.PyStr "OpenAI API Key") /\
    List.length
      (config.logger_handlers
         (config.setup_logging (config.args_logging_file args) lg))
    = S (List.length (config.logger_handlers lg)).
Proof.
  intros environ'. unfold config.load. fold environ'. cbn [config.is_None].
  eexists. split; [reflexivity |]. cbn.
  repeat split.
  - intros ->. reflexivity.
  - intros ->. reflexivity.
  - intros ->. reflexivity.
  - rewrite length_app. simpl. lia.
Qed.

(** ** The further properties on sample data *)

Lemma add_stores_the_other_entries_witness :
  fst (__add Sample.deps (Sample.combat_parsed, fresh_handler)) = ok (0 + 1) /\
  fst (snd (__add Sample.deps (Sample.combat_parsed, fresh_handler)))
  = non_columns Sample.combat_parsed /\
  rows (db (snd (snd (__add Sample.deps (Sample.combat_parsed, fresh_handler)))))
  = ([] ++
     [mkRow (0 + 1) 1 4 1700000000
        (json_dumps repr_int (VDict (non_columns Sample.combat_parsed)))
        (10, 20) (30, 40)])%list.
Proof.
  apply (add_stores_the_other_entries Sample.deps Sample.combat_parsed
           fresh_handler 1 (10, 20) (30, 40) 1700000000); reflexivity.
Defined.

Lemma add_then_get_by_id_witness :
  fst (get_by_id (0 + 1)
         (snd (snd (__add Sample.deps (Sample.combat_parsed, fresh_handler)))))
  = ok (mkStoredEvent (0 + 1) 1 4 1700000000
          (json_dumps repr_int (VDict (non_columns Sample.combat_parsed)))
          (10, 20) (30, 40)).
Proof.
  apply (add_then_get_by_id Sample.deps Sample.combat_parsed fresh_handler
           1 (10, 20) (30, 40) 1700000000);
    try reflexivity.
  split; reflexivity.
Defined.


Lemma get_all_agrees_with_get_by_id_witness :
  db (snd (get_all Cases.stored_combat_handler))
  = db Cases.stored_combat_handler /\
  fst (get_by_id (se_id Cases.stored_combat)
         (snd (get_all Cases.stored_combat_handler)))
  = ok Cases.stored_combat /\
  db (snd (get_by_id (se_id Cases.stored_combat)
             (snd (get_all Cases.stored_combat_handler))))
  = db Cases.stored_combat_handler.
Proof.
  apply (get_all_agrees_with_get_by_id Cases.stored_combat_handler
           Cases.stored_combat).
  - split; reflexivity.
  - exists [Cases.stored_combat]. split; [reflexivity | left; reflexivity].
  - reflexivity.
Defined.

Lemma unbound_timestamp_keeps_the_lock_witness :
  fst (__add Sample.deps (Cases.late_parsed, fresh_handler))
  = raise OverflowError /\
  snd (snd (__add Sample.deps (Cases.late_parsed, fresh_handler)))
  = mkHandler (db (@fresh_handler Z)) Held ([] ++ [Acquire true]) /\
  log (snd (get_all (snd (snd (__add Sample.deps
                                 (Cases.late_parsed, fresh_handler))))))
  = ([] ++ [Acquire true; Acquire false; Execute SelectAll; Release])%list.
Proof.
  apply (unbound_timestamp_keeps_the_lock Sample.deps Cases.late_parsed
           fresh_handler 1 (10, 20) (30, 40) (2 ^ 64)); try reflexivity.
  right. lia.
Defined.

Lemma parse_resources_well_formed_witness :
  @__parse_resources Z ("0x1" :: ["0x3"; "0x1388"] ++ ["0x1"; "0x64"])
  = ok (["0x1"; "0x64"], map resource_dict [(3, 5000)]).
Proof.
  apply (parse_resources_well_formed "0x1" ["0x3"; "0x1388"] ["0x1"; "0x64"]
           [(3, 5000)]).
  - reflexivity.
  - reflexivity.
  - repeat constructor; unfold exact_amount; simpl; lia.
Defined.



Lemma discriminant_alone_is_rejected_witness :
  process_event Sample.deps
    (Some (mkEventEmitted (Some [Sample.order_hash]) (Some Sample.trade_data)
             true))
    fresh_handler
  = (raise IndexError, fresh_handler).
Proof.
  apply (discriminant_alone_is_rejected Sample.deps
           (mkEventEmitted (Some [Sample.order_hash]) (Some Sample.trade_data)
              true)
           Sample.order_hash Sample.trade_data fresh_handler).
  - reflexivity.
  - reflexivity.
  - discriminate.
Defined.

Lemma combat_with_unknown_realm_is_rejected_witness :
  process_event Cases.deps_one_realm Sample.combat_event fresh_handler
  = (inl (RealmNotFound 2), fresh_handler).
Proof.
  apply (combat_with_unknown_realm_is_rejected Sample.deps Cases.deps_one_realm
           (mkEventEmitted (Some [Sample.combat_hash; "0x1"; "0x2"])
              (Some Sample.combat_data) true)
           [Sample.combat_hash; "0x1"; "0x2"] Sample.combat_data
           Sample.combat_parsed 1 2 (RealmNotFound 2) fresh_handler);
    try reflexivity.
  - discriminate.
  - right. exists (10, 20). split; reflexivity.
Defined.

Lemma trade_with_unknown_realm_is_rejected_witness :
  process_event Cases.deps_one_realm Sample.trade_event fresh_handler
  = (inl (RealmNotFound 2), fresh_handler).
Proof.
  apply (trade_with_unknown_realm_is_rejected Sample.deps Cases.deps_one_realm
           (mkEventEmitted (Some [Sample.order_hash; "0x7"])
              (Some Sample.trade_data) true)
           Sample.order_hash ["0x7"] Sample.trade_data
           Cases.trade_parsed 1 2 (RealmNotFound 2) fresh_handler);
    try reflexivity.
  - discriminate.
  - discriminate.
  - right. exists (10, 20). split; reflexivity.
Defined.

Lemma process_event_then_get_by_id_witness :
  exists t a p s,
    dict_get Cases.trade_parsed "type" = Some (VInt t) /\
    dict_get Cases.trade_parsed "active_pos" = Some (VPos a) /\
    dict_get Cases.trade_parsed "passive_pos" = Some (VPos p) /\
    dict_get Cases.trade_parsed "ts" = Some (VInt s) /\
    fst (get_by_id 1
           (snd (process_event Sample.deps Sample.trade_event fresh_handler)))
    = ok (mkStoredEvent 1 t 4 s
            (json_dumps repr_int (VDict (non_columns Cases.trade_parsed))) a p).
Proof.
  apply (process_event_then_get_by_id Sample.deps
           (mkEventEmitted (Some [Sample.order_hash; "0x7"])
              (Some Sample.trade_data) true)
           [Sample.order_hash; "0x7"] Sample.trade_data Cases.trade_parsed
           fresh_handler
           (snd (process_event Sample.deps Sample.trade_event fresh_handler)) 1);
    try reflexivity.
  split; reflexivity.
Defined.

Lemma ids_continue_after_existing_rows_witness :
  successes (fst (process_each Sample.deps
                    [Sample.trade_event; Sample.truncated_event;
                     Sample.combat_event]
                    Cases.stored_combat_handler))
  = [2; 3].
Proof.
  destruct (ids_continue_after_existing_rows Sample.deps
              [Sample.trade_event; Sample.truncated_event; Sample.combat_event]
              Cases.stored_combat_handler)
    as (H & _ & _).
  - split; reflexivity.
  - rewrite H. reflexivity.
Defined.

Lemma schema_only_on_first_launch_witness :
  init Cases.Disk Cases.listed Cases.run_step "./events.db" ([], ([], false))
  = (raise (OperationalError "mod_spatialite: cannot open"),
     ([Connect "./events.db"; EnableLoadExtension; LoadSpatialite],
      (["./events.db"], false))) /\
  init Cases.Disk Cases.listed Cases.run_step "./events.db"
    ([], (["./events.db"], true))
  = (ok tt,
     ([Connect "./events.db"; EnableLoadExtension; LoadSpatialite; InitRealms],
      (["./events.db"], true))) /\
  Cases.listed
    (snd (snd (init Cases.Disk Cases.listed Cases.run_step "./events.db"
                 ([], ([], false)))))
    "./events.db"
  = true /\
  filter is_schema_action
    (fst (snd (init Cases.Disk Cases.listed Cases.run_step "./events.db"
                 ([], snd (snd (init Cases.Disk Cases.listed Cases.run_step
                                  "./events.db" ([], ([], false))))))))
  = filter is_schema_action [].
Proof.
  destruct (schema_only_on_first_launch Cases.Disk Cases.listed Cases.run_step
              "./events.db")
    as (_ & Hfile & Hlater & _).
  - intros fs fs' H. injection H as <-.
    destruct (Cases.listed fs "./events.db") eqn:E; [exact E | reflexivity].
  - intros a fs H.
    destruct a; try exact H.
    + cbn [Cases.run_step snd]. destruct (Cases.listed fs path); [exact H |].
      unfold Cases.listed in H |- *. cbn [existsb fst]. rewrite H.
      apply orb_true_r.
    + cbn [Cases.run_step]. destruct (snd fs); exact H.
  - split; [reflexivity |]. split; [reflexivity |].
    split; [apply (Hfile [] ([], false)) | apply (Hlater [] ([], false) [])];
      reflexivity.
Defined.

Lemma load_checks_cannot_fire_witness :
  exists cfg,
    fst (fst (config.load Cases.no_dotenv Cases.default_args
                (config.mkLogger config.NOTSET []) Cases.bare_environ))
    = ok cfg /\
    config.TORII_WS cfg = config.PyStr "ws://torii" /\
    config.TORII_GRAPHQL cfg = config.PyStr "None".
Proof.
  destruct (load_checks_cannot_fire Cases.no_dotenv Cases.default_args
              (config.mkLogger config.NOTSET []) Cases.bare_environ)
    as (cfg & Hload & Hws & _ & _ & Hgql & _).
  exists cfg. rewrite Hload. split; [reflexivity |].
  split; [exact Hws | apply Hgql; reflexivity].
Defined.

Lemma instance_is_a_singleton_witness :
  stdout (snd (instance (mkClassState None 0 [])))
  = ([] ++ ["Creating db interface"])%list /\
  instance (snd (instance (mkClassState None 0 [])))
  = (0%nat, snd (instance (mkClassState None 0 []))).
Proof.
  destruct (instance_is_a_singleton (mkClassState None 0 []))
    as (Hsame & _ & Hprint & _).
  split; [apply Hprint; reflexivity | exact Hsame].
Defined.
